(** * discord_slash.cog_ext: the cog decorators [cog_slash] and [cog_subcommand]

    A shallow embedding of [discord_slash/cog_ext.py] and the properties of
    its two decorator factories.  Python values live in a store of objects;
    the decorators are computations in a store-and-exception monad. *)

From Stdlib Require Import ZArith String.
From stdpp Require Import base option list gmap strings.

Local Open Scope string_scope.
Set Warnings "-clear-no-such-hyp".

(** ** Python values and objects *)

Abbreviation loc := positive.

(** Immutable values are carried as they are; lists, dicts, functions and
    class instances are objects in the store and are held by reference, so
    that two names for one object are one [VRef]. *)
Inductive val : Type :=
| VNone
| VBool (b : bool)
| VInt (n : Z)
| VStr (s : string)
| VRef (l : loc).

#[global] Instance val_eq_dec : EqDecision val.
Proof. solve_decision. Defined.

(** What the decorators can see of a function object: [cmd.__name__]; the
    docstring and the signature are what [inspect.getdoc] and
    [manage_commands.generate_options] read. *)
Record function : Type := Function {
  __name__ : string;
  __doc__ : val;
  __parameters__ : list (string * val)
}.

Inductive obj : Type :=
| OList (items : list val)
| ODict (items : list (val * val))
| OFunction (f : function)
| OCogCommandObject (name cmd : val)
| OCogSubcommandObject (sub base name sub_group : val).

Abbreviation heap := (gmap loc obj).

(** Exceptions are told apart by their class name. *)
Inductive exn : Type := Exception (cls : string).

(** ** The monad: a store threaded through, an exception or a value *)

Definition M (A : Type) : Type := heap → (exn + A) * heap.

Definition ret {A : Type} (a : A) : M A := λ h, (inr a, h).

Definition bind {A B : Type} (m : M A) (k : A → M B) : M B := λ h,
  match m h with
  | (inr a, h') => k a h'
  | (inl e, h') => (inl e, h')
  end.

Definition raise {A : Type} (e : exn) : M A := λ h, (inl e, h).

Notation "x <- m ;; k" := (bind m (λ x, k))
  (at level 100, m at next level, right associativity).

(** Allocation of a new object, at an address no object lives at. *)
Definition alloc (o : obj) : M val := λ h,
  let l := fresh (dom h) in (inr (VRef l), <[l := o]> h).

(** Reading the object a reference points to.  A reference Python holds
    always has its object; a store without it is reported as an error. *)
Definition deref (l : loc) : M obj := λ h,
  match h !! l with
  | Some o => (inr o, h)
  | None => (inl (Exception "SystemError"), h)
  end.

(** Truth value testing ([bool(v)]): [None], [False], zero, the empty string,
    the empty list and the empty dict are false, every other object is
    true. *)
Definition truth (v : val) : M bool :=
  match v with
  | VNone => ret false
  | VBool b => ret b
  | VInt n => ret (negb (n =? 0)%Z)
  | VStr s => ret (negb (String.eqb s ""))
  | VRef l =>
      o <- deref l ;;
      ret match o with
           | OList items => negb (bool_decide (items = []))
           | ODict items => negb (bool_decide (items = []))
           | _ => true
           end
  end.

(** [x or y]: the left operand when it is true, else the right one, which is
    only then evaluated. *)
Definition py_or (mx my : M val) : M val :=
  x <- mx ;; b <- truth x ;; if b then ret x else my.

Infix "<or>" := py_or (at level 85, right associativity).

(** [v is None] *)
Definition is_None (v : val) : bool :=
  match v with VNone => true | _ => false end.

(** [cmd.__name__] *)
Definition get__name__ (cmd : val) : M val :=
  match cmd with
  | VRef l =>
      o <- deref l ;;
      match o with
      | OFunction f => ret (VStr (__name__ f))
      | _ => raise (Exception "AttributeError")
      end
  | _ => raise (Exception "AttributeError")
  end.

(** A dict display [{k1: v1, ...}] with string keys builds a new dict. *)
Definition dict_display (items : list (string * val)) : M val :=
  alloc (ODict (prod_map VStr id <$> items)).

(** Modelled from the spec: the descriptor classes [CogCommandObject] and
    [CogSubcommandObject] of [discord_slash.model] are not among the sources;
    they are the data-holding objects that keep command metadata, so an
    instance is the new object that records what its constructor was given. *)
Definition CogCommandObject (name cmd : val) : M val :=
  alloc (OCogCommandObject name cmd).

(** Modelled from the spec: [CogSubcommandObject] of [discord_slash.model],
    likewise; it is given the record, the base name, the subcommand name and
    the group. *)
Definition CogSubcommandObject (sub base name sub_group : val) : M val :=
  alloc (OCogSubcommandObject sub base name sub_group).

(** ** The decorators *)

Section cog_ext.

(** [inspect.getdoc] of the Python library and the two helpers of
    [discord_slash.utils.manage_commands]: they may read the store, build
    new objects and raise. *)
Variable getdoc : val → M val.
Variable generate_options : val → val → M val.
Variable generate_auto_convert : val → M val.

Definition cog_slash
    (name description auto_convert guild_ids options : val)
    : M (val → M val) :=
  let wrapper (cmd : val) : M val :=
    desc <- ret description <or> getdoc cmd <or> ret (VStr "No description") ;;
    opts <- (if is_None options
             then generate_options cmd desc
             else ret options) ;;
    b <- truth opts ;;
    auto_conv <- (if b
                  then generate_auto_convert opts
                  else ret auto_convert) ;;
    _cmd <- dict_display [
      ("func", cmd);
      ("description", desc);
      ("auto_convert", auto_conv);
      ("guild_ids", guild_ids);
      ("api_options", opts);
      ("has_subcommands", VBool false)
    ] ;;
    nm <- ret name <or> get__name__ cmd ;;
    CogCommandObject nm _cmd
  in
  ret wrapper.

Definition cog_subcommand
    (base subcommand_group name description
     base_description base_desc
     subcommand_group_description sub_group_desc
     auto_convert guild_ids options : val)
    : M (val → M val) :=
  base_description <- ret base_description <or> ret base_desc ;;
  subcommand_group_description <-
    ret subcommand_group_description <or> ret sub_group_desc ;;
  let wrapper (cmd : val) : M val :=
    desc <- ret description <or> getdoc cmd <or> ret (VStr "No description") ;;
    opts <- (if is_None options
             then generate_options cmd desc
             else ret options) ;;
    b <- truth opts ;;
    auto_conv <- (if b
                  then generate_auto_convert opts
                  else ret auto_convert) ;;
    nm <- ret name <or> get__name__ cmd ;;
    bd <- ret base_description <or> ret (VStr "No Description.") ;;
    sd <- ret subcommand_group_description <or> ret (VStr "No Description.") ;;
    _sub <- dict_display [
      ("func", cmd);
      ("name", nm);
      ("description", desc);
      ("base_desc", bd);
      ("sub_group_desc", sd);
      ("auto_convert", auto_conv);
      ("guild_ids", guild_ids);
      ("api_options", opts)
    ] ;;
    nm' <- ret name <or> get__name__ cmd ;;
    CogSubcommandObject _sub base nm' subcommand_group
  in
  ret wrapper.

End cog_ext.

(** ** Calling the factories

    Both factories take keyword arguments only.  A keyword that is left out
    takes its default [None]; [base] has no default; a keyword the signature
    does not have is a [TypeError]. *)

Definition kwarg (kw : gmap string val) (k : string) : val :=
  default VNone (kw !! k).

Definition cog_slash_keywords : gset string :=
  list_to_set ["name"; "description"; "auto_convert"; "guild_ids"; "options"].

Definition cog_subcommand_keywords : gset string :=
  list_to_set ["base"; "subcommand_group"; "name"; "description";
               "base_description"; "base_desc";
               "subcommand_group_description"; "sub_group_desc";
               "auto_convert"; "guild_ids"; "options"].

Section calls.

Variable getdoc : val → M val.
Variable generate_options : val → val → M val.
Variable generate_auto_convert : val → M val.

Definition call_cog_slash (kw : gmap string val) : M (val → M val) :=
  if decide (dom kw ⊆ cog_slash_keywords)
  then cog_slash getdoc generate_options generate_auto_convert
         (kwarg kw "name") (kwarg kw "description") (kwarg kw "auto_convert")
         (kwarg kw "guild_ids") (kwarg kw "options")
  else raise (Exception "TypeError").

Definition call_cog_subcommand (kw : gmap string val) : M (val → M val) :=
  if decide (dom kw ⊆ cog_subcommand_keywords)
  then match kw !! "base" with
       | Some base =>
           cog_subcommand getdoc generate_options generate_auto_convert
             base (kwarg kw "subcommand_group") (kwarg kw "name")
             (kwarg kw "description")
             (kwarg kw "base_description") (kwarg kw "base_desc")
             (kwarg kw "subcommand_group_description")
             (kwarg kw "sub_group_desc")
             (kwarg kw "auto_convert") (kwarg kw "guild_ids")
             (kwarg kw "options")
       | None => raise (Exception "TypeError")
       end
  else raise (Exception "TypeError").

End calls.

(** ** Either decorator, called with keyword arguments *)

Inductive decorator : Type := CogSlash | CogSubcommand.

Definition call (getdoc : val → M val) (generate_options : val → val → M val)
    (generate_auto_convert : val → M val)
    (f : decorator) (kw : gmap string val) : M (val → M val) :=
  match f with
  | CogSlash => call_cog_slash getdoc generate_options generate_auto_convert kw
  | CogSubcommand =>
      call_cog_subcommand getdoc generate_options generate_auto_convert kw
  end.

(** ** Observing runs and descriptors *)

(** [returns m h a h']: run in store [h], [m] returns [a] and leaves [h']. *)
Definition returns {A : Type} (m : M A) (h : heap) (a : A) (h' : heap) : Prop :=
  m h = (inr a, h').

(** [decorated dec h0 cmd h r h']: the decorator expression [dec], evaluated
    in store [h0], gives a wrapper; that wrapper, applied to [cmd] in store
    [h], returns [r] and leaves [h']. *)
Definition decorated (dec : M (val → M val)) (h0 : heap)
    (cmd : val) (h : heap) (r : val) (h' : heap) : Prop :=
  ∃ wrapper, returns dec h0 wrapper h0 ∧ returns (wrapper cmd) h r h'.

Definition truthy (h : heap) (v : val) : Prop := returns (truth v) h true h.
Definition falsy (h : heap) (v : val) : Prop := returns (truth v) h false h.

Definition is_function (h : heap) (v : val) (f : function) : Prop :=
  ∃ l, v = VRef l ∧ h !! l = Some (OFunction f).

Definition nonempty_list (h : heap) (v : val) : Prop :=
  ∃ l x xs, v = VRef l ∧ h !! l = Some (OList (x :: xs)).

Definition empty_list (h : heap) (v : val) : Prop :=
  ∃ l, v = VRef l ∧ h !! l = Some (OList []).

(** The truth value of a value that is not a reference, which no store can
    change. *)
Definition plain_truth (v : val) : option bool :=
  match v with
  | VNone => Some false
  | VBool b => Some b
  | VInt n => Some (negb (n =? 0)%Z)
  | VStr s => Some (negb (String.eqb s ""))
  | VRef _ => None
  end.

(** [d[k]] on the items of a dict. *)
Fixpoint dict_get (items : list (val * val)) (k : val) : option val :=
  match items with
  | [] => None
  | (k', v) :: items => if decide (k' = k) then Some v else dict_get items k
  end.

(** The record a descriptor was built from: the [cmd] argument of
    [CogCommandObject], the [sub] argument of [CogSubcommandObject]. *)
Definition descriptor_record (h : heap) (r : val) : option (list (val * val)) :=
  match r with
  | VRef l =>
      match h !! l with
      | Some (OCogCommandObject _ (VRef d))
      | Some (OCogSubcommandObject (VRef d) _ _ _) =>
          match h !! d with
          | Some (ODict items) => Some items
          | _ => None
          end
      | _ => None
      end
  | _ => None
  end.

Definition field (h : heap) (r : val) (k : string) : option val :=
  items ← descriptor_record h r; dict_get items (VStr k).

(** The name a descriptor was built with. *)
Definition descriptor_name (h : heap) (r : val) : option val :=
  match r with
  | VRef l =>
      match h !! l with
      | Some (OCogCommandObject nm _)
      | Some (OCogSubcommandObject _ _ nm _) => Some nm
      | _ => None
      end
  | _ => None
  end.

(** [allocates h o l h']: [h'] is [h] with the new object [o] at [l]. *)
Definition allocates (h : heap) (o : obj) (l : loc) (h' : heap) : Prop :=
  l = fresh (dom h) ∧ h' = <[l := o]> h.

(** [preserves m]: whatever [m] does, the objects of the store it starts
    in are all still there, unchanged, when it is done. *)
Definition preserves {A : Type} (m : M A) : Prop :=
  ∀ h res h', m h = (res, h') → h ⊆ h'.

(** ** The resolution steps, as relations between stores *)

(** [x or y] with a plain value on the right. *)
Definition resolved_or (x y : val) (h : heap) (v : val) : Prop :=
  (truthy h x ∧ v = x) ∨ (falsy h x ∧ v = y).

(** [name or cmd.__name__] *)
Definition resolved_name (name cmd : val) (h : heap) (nm : val) : Prop :=
  (truthy h name ∧ nm = name) ∨
  (falsy h name ∧ ∃ f, is_function h cmd f ∧ nm = VStr (__name__ f)).

Section resolution.

Variable getdoc : val → M val.
Variable generate_options : val → val → M val.
Variable generate_auto_convert : val → M val.

(** The keyword argument if it is true, otherwise the docstring if that
    is true, otherwise the placeholder. *)
Definition resolved_description (description cmd : val)
    (h : heap) (desc : val) (h1 : heap) : Prop :=
  (truthy h description ∧ desc = description ∧ h1 = h) ∨
  (falsy h description ∧
   ∃ doc, returns (getdoc cmd) h doc h1 ∧
          resolved_or doc (VStr "No description") h1 desc).

(** The generated options when [options] is [None], otherwise [options]. *)
Definition resolved_options (options cmd desc : val)
    (h1 : heap) (opts : val) (h2 : heap) : Prop :=
  (options = VNone ∧ returns (generate_options cmd desc) h1 opts h2) ∨
  (options ≠ VNone ∧ opts = options ∧ h2 = h1).

(** The generated map when the options are true, otherwise
    [auto_convert]. *)
Definition resolved_auto_convert (auto_convert opts : val)
    (h2 : heap) (auto_conv : val) (h3 : heap) : Prop :=
  (truthy h2 opts ∧ returns (generate_auto_convert opts) h2 auto_conv h3) ∨
  (falsy h2 opts ∧ auto_conv = auto_convert ∧ h3 = h2).

End resolution.

(** The items of the two records, in the order of the dict displays. *)
Definition slash_record (cmd desc auto_conv guild_ids opts : val)
    : list (val * val) :=
  [ (VStr "func", cmd);
    (VStr "description", desc);
    (VStr "auto_convert", auto_conv);
    (VStr "guild_ids", guild_ids);
    (VStr "api_options", opts);
    (VStr "has_subcommands", VBool false) ].

Definition subcommand_record
    (cmd nm desc bd sd auto_conv guild_ids opts : val) : list (val * val) :=
  [ (VStr "func", cmd);
    (VStr "name", nm);
    (VStr "description", desc);
    (VStr "base_desc", bd);
    (VStr "sub_group_desc", sd);
    (VStr "auto_convert", auto_conv);
    (VStr "guild_ids", guild_ids);
    (VStr "api_options", opts) ].

(** The fields both records have. *)
Definition common_fields (items : list (val * val))
    (cmd desc auto_conv guild_ids opts : val) : Prop :=
  dict_get items (VStr "func") = Some cmd ∧
  dict_get items (VStr "description") = Some desc ∧
  dict_get items (VStr "auto_convert") = Some auto_conv ∧
  dict_get items (VStr "guild_ids") = Some guild_ids ∧
  dict_get items (VStr "api_options") = Some opts.

(** Two values that are the same to [or]: equal, or both false whatever the
    store. *)
Definition same_or_falsy (x y : val) : Prop :=
  x = y ∨ (plain_truth x = Some false ∧ plain_truth y = Some false).

(** The keywords whose value only ever goes through [or]. *)
Definition defaulted_keywords (f : decorator) : list string :=
  match f with
  | CogSlash => ["name"; "description"]
  | CogSubcommand =>
      ["name"; "description"; "base_description";
       "subcommand_group_description"]
  end.

(** ** A cog to run the decorators on

    Stand-ins for [inspect.getdoc] and the two helpers, and a store with one
    command function in it. *)

(** The docstring as it is (no clean-up of indentation), [None] when the
    function has none. *)
Definition demo_getdoc (cmd : val) : M val :=
  match cmd with
  | VRef l =>
      o <- deref l ;;
      match o with
      | OFunction f =>
          ret (match __doc__ f with VStr s => VStr s | _ => VNone end)
      | _ => ret VNone
      end
  | _ => ret VNone
  end.

Fixpoint demo_create_options (desc : val) (params : list (string * val))
    : M (list val) :=
  match params with
  | [] => ret []
  | (p, t) :: params =>
      o <- dict_display [("name", VStr p); ("description", desc);
                         ("type", t); ("required", VBool true)] ;;
      os <- demo_create_options desc params ;;
      ret (o :: os)
  end.

(** One option for every parameter after [self] and [ctx]. *)
Definition demo_generate_options (cmd desc : val) : M val :=
  match cmd with
  | VRef l =>
      o <- deref l ;;
      match o with
      | OFunction f =>
          os <- demo_create_options desc (drop 2 (__parameters__ f)) ;;
          alloc (OList os)
      | _ => raise (Exception "TypeError")
      end
  | _ => raise (Exception "TypeError")
  end.

Fixpoint demo_name_types (options : list val) : M (list (val * val)) :=
  match options with
  | [] => ret []
  | VRef l :: options =>
      o <- deref l ;;
      match o with
      | ODict items =>
          match dict_get items (VStr "name"), dict_get items (VStr "type") with
          | Some n, Some t =>
              kvs <- demo_name_types options ;;
              ret ((n, t) :: kvs)
          | _, _ => raise (Exception "KeyError")
          end
      | _ => raise (Exception "TypeError")
      end
  | _ :: _ => raise (Exception "TypeError")
  end.

(** The map from option name to option type. *)
Definition demo_generate_auto_convert (opts : val) : M val :=
  match opts with
  | VRef l =>
      o <- deref l ;;
      match o with
      | OList items =>
          kvs <- demo_name_types items ;;
          alloc (ODict kvs)
      | _ => raise (Exception "TypeError")
      end
  | _ => raise (Exception "TypeError")
  end.

Definition demo_call : decorator → gmap string val → M (val → M val) :=
  call demo_getdoc demo_generate_options demo_generate_auto_convert.

(** [async def say(self, ctx, text: str): "Say it"], a list of guild ids, an
    empty list and a dict. *)
Definition demo_store : heap :=
  {[ 1%positive := OFunction (Function "say" (VStr "Say it")
                     [("self", VNone); ("ctx", VNone); ("text", VInt 3)]);
     2%positive := OList [VInt 42];
     3%positive := OList [];
     4%positive := ODict [(VStr "text", VInt 4)] ]}.

(** The decorator expression evaluated in [h0], its wrapper applied to [cmd]
    in [h]. *)
Definition decorate (dec : M (val → M val)) (h0 : heap) (cmd : val) (h : heap)
    : (exn + val) * heap :=
  match dec h0 with
  | (inr wrapper, _) => wrapper cmd h
  | (inl e, _) => (inl e, h)
  end.

(** What the decorator expression gives in [demo_store]. *)
Definition demo_wrapper (f : decorator) (kw : gmap string val) : val → M val :=
  match demo_call f kw demo_store with
  | (inr wrapper, _) => wrapper
  | (inl e, _) => λ _, raise e
  end.

(** Three runs on [say]: [@cog_slash()], then
    [@cog_subcommand(base="group", name="", guild_ids=[42],
    base_description="", base_desc="Group commands")], then
    [@cog_slash(description="Says it", options=[], auto_convert={...})]. *)
Definition demo_slash : (exn + val) * heap :=
  Eval vm_compute in
    decorate (demo_call CogSlash ∅) demo_store (VRef 1%positive) demo_store.

Definition demo_subcommand_kw : gmap string val :=
  {[ "base" := VStr "group"; "name" := VStr "";
     "guild_ids" := VRef 2%positive;
     "base_description" := VStr ""; "base_desc" := VStr "Group commands" ]}.

Definition demo_subcommand : (exn + val) * heap :=
  Eval vm_compute in
    decorate (demo_call CogSubcommand demo_subcommand_kw)
      demo_store (VRef 1%positive) demo_store.

Definition demo_given_kw : gmap string val :=
  {[ "description" := VStr "Says it"; "options" := VRef 3%positive;
     "auto_convert" := VRef 4%positive ]}.

Definition demo_given : (exn + val) * heap :=
  Eval vm_compute in
    decorate (demo_call CogSlash demo_given_kw)
      demo_store (VRef 1%positive) demo_store.

(** Two runs on [7], which is no function: [@cog_slash()], where the demo
    [generate_options] raises, and [@cog_slash(options=[])].  And the wrapper
    of the second run above applied once more, in the store that run left. *)
Definition demo_failing : (exn + val) * heap :=
  Eval vm_compute in
    decorate (demo_call CogSlash ∅) demo_store (VInt 7) demo_store.

Definition demo_nameless_kw : gmap string val :=
  {[ "options" := VRef 3%positive ]}.

Definition demo_nameless : (exn + val) * heap :=
  Eval vm_compute in
    decorate (demo_call CogSlash demo_nameless_kw)
      demo_store (VInt 7) demo_store.

Definition demo_second : (exn + val) * heap :=
  Eval vm_compute in
    demo_wrapper CogSubcommand demo_subcommand_kw (VRef 1%positive)
      demo_subcommand.2.

(** An [inspect.getdoc] and a [generate_options] that only raise. *)
Definition failing_getdoc (cmd : val) : M val :=
  raise (Exception "ValueError").

Definition failing_generate_options (cmd desc : val) : M val :=
  raise (Exception "ValueError").

(** ** Failing runs and objects without a name *)

(** [raises m h e h']: run in store [h], [m] raises [e] and leaves [h']. *)
Definition raises {A : Type} (m : M A) (h : heap) (e : exn) (h' : heap) : Prop :=
  m h = (inl e, h').

(** A reference whose object is not in the store. *)
Definition dangling (h : heap) (v : val) : Prop :=
  ∃ l, v = VRef l ∧ h !! l = None.

(** A value that is its own or whose object is in the store. *)
Definition live (h : heap) (v : val) : Prop :=
  match v with
  | VRef l => is_Some (h !! l)
  | _ => True
  end.

(** A value with no [__name__]: [None], a bool, an int, a string, a list or
    a dict. *)
Definition nameless (h : heap) (v : val) : Prop :=
  match v with
  | VRef l => ∃ o, h !! l = Some o ∧
                   ((∃ items, o = OList items) ∨ (∃ items, o = ODict items))
  | _ => True
  end.

(** The keywords of a decorator's signature. *)
Definition keywords (f : decorator) : gset string :=
  match f with
  | CogSlash => cog_slash_keywords
  | CogSubcommand => cog_subcommand_keywords
  end.

(** What the wrapper has built when it reads [cmd.__name__]: in [cog_slash]
    the record is there already, in [cog_subcommand] the name is read inside
    the dict display, before the record is. *)
Definition store_at_name (f : decorator)
    (cmd desc auto_conv guild_ids opts : val) (h3 : heap) : heap :=
  match f with
  | CogSlash =>
      <[fresh (dom h3) := ODict (slash_record cmd desc auto_conv guild_ids opts)]>
        h3
  | CogSubcommand => h3
  end.

(** ** Runs of the monad *)

Lemma returns_ret {A : Type} (a b : A) (h h' : heap) :
  returns (ret a) h b h' ↔ b = a ∧ h' = h.
Proof. unfold returns, ret. split; [intros [= -> ->] | intros [-> ->]]; done. Qed.

Lemma returns_bind {A B : Type} (m : M A) (k : A → M B) h b h' :
  returns (x <- m ;; k x) h b h' ↔
  ∃ a h1, returns m h a h1 ∧ returns (k a) h1 b h'.
Proof.
  unfold returns, bind. split.
  - destruct (m h) as [[e|a] h1]; [done|]. intros Hk. by exists a, h1.
  - intros (a & h1 & -> & Hk). done.
Qed.

Lemma returns_raise {A : Type} (e : exn) h (a : A) h' :
  ¬ returns (raise e) h a h'.
Proof. unfold returns, raise. congruence. Qed.

Lemma returns_deref l h o h' :
  returns (deref l) h o h' ↔ h !! l = Some o ∧ h' = h.
Proof.
  unfold returns, deref. destruct (h !! l) as [o'|]; split.
  - by intros [= -> ->].
  - by intros [[= ->] ->].
  - done.
  - by intros [? _].
Qed.

(** Truth value testing reads the store and leaves it as it is. *)
Lemma truth_store v h res h' : truth v h = (res, h') → h' = h.
Proof.
  destruct v as [| | | |l]; cbn; unfold ret; try (by intros [= _ <-]).
  unfold bind, deref. destruct (h !! l); by intros [= _ <-].
Qed.

Lemma returns_truth v h b h' :
  returns (truth v) h b h' ↔
  h' = h ∧ ((b = true ∧ truthy h v) ∨ (b = false ∧ falsy h v)).
Proof.
  unfold truthy, falsy, returns. split.
  - intros H. pose proof (truth_store _ _ _ _ H) as ->.
    split; [done|]. destruct b; auto.
  - intros [-> [[-> H]|[-> H]]]; done.
Qed.

Lemma truthy_falsy h v : truthy h v → falsy h v → False.
Proof. unfold truthy, falsy, returns. congruence. Qed.

Lemma returns_or mx my h v h' :
  returns (mx <or> my) h v h' ↔
  ∃ x h1, returns mx h x h1 ∧
          ((truthy h1 x ∧ v = x ∧ h' = h1) ∨ (falsy h1 x ∧ returns my h1 v h')).
Proof.
  unfold py_or. rewrite returns_bind. split.
  - intros (x & h1 & Hx & Hk). exists x, h1. split; [done|].
    apply returns_bind in Hk as (b & h2 & Hb & Hk).
    apply returns_truth in Hb as [-> [[-> Hb]|[-> Hb]]].
    + apply returns_ret in Hk as [-> ->]. by left.
    + by right.
  - intros (x & h1 & Hx & [(Hb & -> & ->)|[Hb Hy]]);
      exists x, h1; (split; [done|]); apply returns_bind.
    + exists true, h1. split; [done|]. by apply returns_ret.
    + by exists false, h1.
Qed.

Lemma returns_or_ret x my h v h' :
  returns (ret x <or> my) h v h' ↔
  (truthy h x ∧ v = x ∧ h' = h) ∨ (falsy h x ∧ returns my h v h').
Proof.
  rewrite returns_or. split.
  - intros (x' & h1 & [-> ->]%returns_ret & H). done.
  - intros H. exists x, h. split; [by apply returns_ret | done].
Qed.

Lemma returns_or_values x y h v h' :
  returns (ret x <or> ret y) h v h' ↔ h' = h ∧ resolved_or x y h v.
Proof.
  rewrite returns_or_ret, returns_ret. unfold resolved_or. naive_solver.
Qed.

Lemma returns_get__name__ cmd h nm h' :
  returns (get__name__ cmd) h nm h' ↔
  h' = h ∧ ∃ f, is_function h cmd f ∧ nm = VStr (__name__ f).
Proof.
  unfold is_function. destruct cmd as [| | | |l]; cbn;
    try (split; [by intros ?%returns_raise | naive_solver]).
  rewrite returns_bind. split.
  - intros (o & h1 & [Hl ->]%returns_deref & Ho).
    destruct o; try (by apply returns_raise in Ho).
    apply returns_ret in Ho as [-> ->]. naive_solver.
  - intros (-> & f & (l' & [= <-] & Hl) & ->).
    exists (OFunction f), h. split; [by apply returns_deref | by apply returns_ret].
Qed.

Lemma returns_name name cmd h nm h' :
  returns (ret name <or> get__name__ cmd) h nm h' ↔
  h' = h ∧ resolved_name name cmd h nm.
Proof.
  rewrite returns_or_ret, returns_get__name__. unfold resolved_name.
  naive_solver.
Qed.

Lemma returns_alloc o h v h' :
  returns (alloc o) h v h' ↔
  v = VRef (fresh (dom h)) ∧ h' = <[fresh (dom h) := o]> h.
Proof. unfold returns, alloc. split; [intros [= <- <-] | intros [-> ->]]; done. Qed.

Lemma allocates_new h o l h' : allocates h o l h' → h !! l = None.
Proof. intros [-> _]. apply not_elem_of_dom, is_fresh. Qed.

Lemma allocates_lookup h o l h' : allocates h o l h' → h' !! l = Some o.
Proof. intros [_ ->]. apply lookup_insert_eq. Qed.

Lemma allocates_subseteq h o l h' : allocates h o l h' → h ⊆ h'.
Proof.
  intros H. pose proof (allocates_new _ _ _ _ H). destruct H as [_ ->].
  by apply insert_subseteq.
Qed.

(** ** Truth values and stores that grow *)

Lemma plain_truth_returns v b h : plain_truth v = Some b → returns (truth v) h b h.
Proof. destruct v; cbn; try done; by intros [= <-]. Qed.

Lemma plain_falsy h x : plain_truth x = Some false → falsy h x.
Proof. apply plain_truth_returns. Qed.

Lemma plain_not_truthy h x : plain_truth x = Some false → ¬ truthy h x.
Proof. intros Hx Ht. by apply (truthy_falsy h x), plain_falsy. Qed.

Lemma truthy_subseteq h h' v : truthy h v → h ⊆ h' → truthy h' v.
Proof.
  unfold truthy, returns. destruct v as [| | | |l]; cbv [truth ret];
    try (by intros [=]; subst); try (intros [= Hb] _; by rewrite Hb).
  unfold bind, deref. intros H Hsub. destruct (h !! l) as [o|] eqn:Hl; [|done].
  rewrite (lookup_weaken _ _ _ _ Hl Hsub). by injection H as ->.
Qed.

Lemma falsy_subseteq h h' v : falsy h v → h ⊆ h' → falsy h' v.
Proof.
  unfold falsy, returns. destruct v as [| | | |l]; cbv [truth ret];
    try (by intros [=]; subst); try (intros [= Hb] _; by rewrite Hb).
  unfold bind, deref. intros H Hsub. destruct (h !! l) as [o|] eqn:Hl; [|done].
  rewrite (lookup_weaken _ _ _ _ Hl Hsub). by injection H as ->.
Qed.

Lemma is_function_subseteq h h' v f :
  is_function h v f → h ⊆ h' → is_function h' v f.
Proof.
  intros (l & -> & Hl) Hsub. exists l. split; [done|].
  by apply (lookup_weaken _ _ _ _ Hl Hsub).
Qed.

Lemma is_function_inj h v f f' : is_function h v f → is_function h v f' → f = f'.
Proof. intros (l & -> & Hl) (l' & [= <-] & Hl'). congruence. Qed.

Lemma nonempty_list_truthy h v : nonempty_list h v → truthy h v.
Proof.
  intros (l & x & xs & -> & Hl). unfold truthy, returns. cbn.
  unfold bind, deref. by rewrite Hl.
Qed.

Lemma empty_list_falsy h v : empty_list h v → falsy h v.
Proof.
  intros (l & -> & Hl). unfold falsy, returns. cbn.
  unfold bind, deref. by rewrite Hl.
Qed.

Lemma empty_list_subseteq h h' v : empty_list h v → h ⊆ h' → empty_list h' v.
Proof.
  intros (l & -> & Hl) Hsub. exists l. split; [done|].
  by apply (lookup_weaken _ _ _ _ Hl Hsub).
Qed.

Lemma resolved_or_subseteq x y h h' v :
  resolved_or x y h v → h ⊆ h' → resolved_or x y h' v.
Proof.
  intros [[Ht ->]|[Hf ->]] Hsub; [left|right]; (split; [|done]).
  - by apply (truthy_subseteq h).
  - by apply (falsy_subseteq h).
Qed.

Lemma resolved_name_subseteq name cmd h h' nm :
  resolved_name name cmd h nm → h ⊆ h' → resolved_name name cmd h' nm.
Proof.
  intros [[Ht ->]|(Hf & fn & Hfn & ->)] Hsub.
  - left. split; [|done]. by apply (truthy_subseteq h).
  - right. split; [by apply (falsy_subseteq h)|].
    exists fn. split; [|done]. by apply (is_function_subseteq h).
Qed.

Lemma resolved_name_inj name cmd h nm nm' :
  resolved_name name cmd h nm → resolved_name name cmd h nm' → nm = nm'.
Proof.
  intros [[Ht ->]|(Hf & fn & Hfn & ->)] [[Ht' ->]|(Hf' & fn' & Hfn' & ->)];
    try done; try (by destruct (truthy_falsy h name)).
  by rewrite (is_function_inj _ _ _ _ Hfn Hfn').
Qed.

(** ** The runs of the two decorators *)

Lemma descriptor_record_slash h3 items d h4 nm lr h' :
  allocates h3 (ODict items) d h4 →
  allocates h4 (OCogCommandObject nm (VRef d)) lr h' →
  h' !! lr = Some (OCogCommandObject nm (VRef d)) ∧
  h' !! d = Some (ODict items) ∧
  descriptor_record h' (VRef lr) = Some items.
Proof.
  intros Hd Hr.
  pose proof (allocates_lookup _ _ _ _ Hr) as Hlr.
  pose proof (lookup_weaken _ _ _ _ (allocates_lookup _ _ _ _ Hd)
                (allocates_subseteq _ _ _ _ Hr)) as Hld.
  repeat split; [done..|]. cbn. by rewrite Hlr, Hld.
Qed.

Lemma descriptor_record_subcommand h3 items d h4 base nm sg lr h' :
  allocates h3 (ODict items) d h4 →
  allocates h4 (OCogSubcommandObject (VRef d) base nm sg) lr h' →
  h' !! lr = Some (OCogSubcommandObject (VRef d) base nm sg) ∧
  h' !! d = Some (ODict items) ∧
  descriptor_record h' (VRef lr) = Some items.
Proof.
  intros Hd Hr.
  pose proof (allocates_lookup _ _ _ _ Hr) as Hlr.
  pose proof (lookup_weaken _ _ _ _ (allocates_lookup _ _ _ _ Hd)
                (allocates_subseteq _ _ _ _ Hr)) as Hld.
  repeat split; [done..|]. cbn. by rewrite Hlr, Hld.
Qed.

Lemma field_record h r items k :
  descriptor_record h r = Some items →
  field h r k = dict_get items (VStr k).
Proof. unfold field. by intros ->. Qed.

Lemma decorated_raise e h0 cmd h r h' : ¬ decorated (raise e) h0 cmd h r h'.
Proof. intros (w & Hw & _). by apply returns_raise in Hw. Qed.

Lemma decorate_decorated dec h0 cmd h r h' :
  (dec h0).2 = h0 → decorate dec h0 cmd h = (inr r, h') →
  decorated dec h0 cmd h r h'.
Proof.
  unfold decorate, decorated, returns.
  destruct (dec h0) as [[e|w] h0']; cbn; intros -> H; [done|]. by exists w.
Qed.

Section runs.

Variable getdoc : val → M val.
Variable generate_options : val → val → M val.
Variable generate_auto_convert : val → M val.

Lemma returns_description description cmd h desc h1 :
  returns (ret description <or> getdoc cmd <or> ret (VStr "No description"))
    h desc h1 ↔
  resolved_description getdoc description cmd h desc h1.
Proof.
  rewrite returns_or_ret, returns_or. unfold resolved_description, resolved_or.
  split.
  - intros [?|(Hf & doc & h' & Hdoc & [(? & -> & ->)|[? [-> ->]%returns_ret]])];
      [by left| |]; right; (split; [done|]); exists doc; auto.
  - intros [?|(Hf & doc & Hdoc & [[? ->]|[? ->]])]; [by left| |];
      right; (split; [done|]); exists doc, h1; (split; [done|]).
    + by left.
    + right. split; [done|]. by apply returns_ret.
Qed.

Lemma returns_options options cmd desc h1 opts h2 :
  returns (if is_None options then generate_options cmd desc else ret options)
    h1 opts h2 ↔
  resolved_options generate_options options cmd desc h1 opts h2.
Proof.
  unfold resolved_options.
  destruct options; cbn; rewrite ?returns_ret; split;
    try (intros [[Hn Hr]|(Hn & Hr)]; done);
    try (intros Hr; right; by split).
  intros Hr. by left.
Qed.

Lemma returns_auto_convert auto_convert opts h2 auto_conv h3 :
  returns (b <- truth opts ;;
           if b then generate_auto_convert opts else ret auto_convert)
    h2 auto_conv h3 ↔
  resolved_auto_convert generate_auto_convert auto_convert opts h2 auto_conv h3.
Proof.
  rewrite returns_bind. unfold resolved_auto_convert. split.
  - intros (b & h & [-> [[-> Hb]|[-> Hb]]]%returns_truth & Hr); [by left|].
    apply returns_ret in Hr. by right.
  - intros [[? ?]|(? & -> & ->)].
    + by exists true, h2.
    + exists false, h2. split; [done|]. by apply returns_ret.
Qed.

(** The steps are runs: they have one outcome. *)
Lemma resolved_description_inj description cmd h desc h1 desc' h1' :
  resolved_description getdoc description cmd h desc h1 →
  resolved_description getdoc description cmd h desc' h1' →
  desc = desc' ∧ h1 = h1'.
Proof.
  intros H1%returns_description H2%returns_description.
  unfold returns in *. rewrite H1 in H2. by injection H2.
Qed.

Lemma resolved_options_inj options cmd desc h1 opts h2 opts' h2' :
  resolved_options generate_options options cmd desc h1 opts h2 →
  resolved_options generate_options options cmd desc h1 opts' h2' →
  opts = opts' ∧ h2 = h2'.
Proof.
  intros H1%returns_options H2%returns_options.
  unfold returns in *. rewrite H1 in H2. by injection H2.
Qed.

(** The run of the wrapper of [cog_slash], step by step. *)
Lemma cog_slash_run name description auto_convert guild_ids options
    h0 cmd h r h' :
  decorated (cog_slash getdoc generate_options generate_auto_convert
               name description auto_convert guild_ids options)
    h0 cmd h r h' ↔
  ∃ desc h1 opts h2 auto_conv h3 d h4 nm lr,
    resolved_description getdoc description cmd h desc h1 ∧
    resolved_options generate_options options cmd desc h1 opts h2 ∧
    resolved_auto_convert generate_auto_convert auto_convert opts h2
      auto_conv h3 ∧
    allocates h3 (ODict (slash_record cmd desc auto_conv guild_ids opts))
      d h4 ∧
    resolved_name name cmd h4 nm ∧
    allocates h4 (OCogCommandObject nm (VRef d)) lr h' ∧
    r = VRef lr.
Proof.
  unfold decorated, cog_slash. split.
  - intros (w & [-> _]%returns_ret & H).
    apply returns_bind in H as (desc & h1 & Hdesc%returns_description & H).
    apply returns_bind in H as (opts & h2 & Hopts%returns_options & H).
    apply returns_bind in H as (b & h2' & Hb & H).
    apply returns_bind in H as (auto_conv & h3 & Hc & H').
    assert (Hac : resolved_auto_convert generate_auto_convert auto_convert
                    opts h2 auto_conv h3).
    { apply returns_auto_convert, returns_bind. by exists b, h2'. }
    apply returns_bind in H' as (_cmd & h4 & [-> Hd]%returns_alloc & H').
    apply returns_bind in H' as (nm & h5 & [-> Hnm]%returns_name & H').
    apply returns_alloc in H' as [-> ->].
    exists desc, h1, opts, h2, auto_conv, h3, (fresh (dom h3)), h4, nm,
      (fresh (dom h4)).
    by repeat split.
  - intros (desc & h1 & opts & h2 & auto_conv & h3 & d & h4 & nm & lr &
            Hdesc & Hopts & Hac & [-> ->] & Hnm & [-> ->] & ->).
    eexists. split; [by apply returns_ret|].
    apply returns_bind. exists desc, h1.
    split; [by apply returns_description|].
    apply returns_bind. exists opts, h2.
    split; [by apply returns_options|].
    apply returns_auto_convert, returns_bind in Hac as (b & h2' & Hb & Hc).
    apply returns_bind. exists b, h2'. split; [done|].
    apply returns_bind. exists auto_conv, h3. split; [done|].
    apply returns_bind. eexists _, _. split; [by apply returns_alloc|].
    apply returns_bind. eexists nm, _. split; [by apply returns_name|].
    by apply returns_alloc.
Qed.

(** The run of [cog_subcommand]: the two alias pairs when the decorator
    expression is evaluated, then the wrapper step by step. *)
Lemma cog_subcommand_run base subcommand_group name description
    base_description base_desc subcommand_group_description sub_group_desc
    auto_convert guild_ids options h0 cmd h r h' :
  decorated (cog_subcommand getdoc generate_options generate_auto_convert
               base subcommand_group name description
               base_description base_desc
               subcommand_group_description sub_group_desc
               auto_convert guild_ids options)
    h0 cmd h r h' ↔
  ∃ base_description' subcommand_group_description',
    resolved_or base_description base_desc h0 base_description' ∧
    resolved_or subcommand_group_description sub_group_desc h0
      subcommand_group_description' ∧
    ∃ desc h1 opts h2 auto_conv h3 nm bd sd d h4 nm' lr,
      resolved_description getdoc description cmd h desc h1 ∧
      resolved_options generate_options options cmd desc h1 opts h2 ∧
      resolved_auto_convert generate_auto_convert auto_convert opts h2
        auto_conv h3 ∧
      resolved_name name cmd h3 nm ∧
      resolved_or base_description' (VStr "No Description.") h3 bd ∧
      resolved_or subcommand_group_description' (VStr "No Description.")
        h3 sd ∧
      allocates h3
        (ODict (subcommand_record cmd nm desc bd sd auto_conv guild_ids opts))
        d h4 ∧
      resolved_name name cmd h4 nm' ∧
      allocates h4 (OCogSubcommandObject (VRef d) base nm' subcommand_group)
        lr h' ∧
      r = VRef lr.
Proof.
  unfold decorated, cog_subcommand. split.
  - intros (w & Hw & H).
    apply returns_bind in Hw as (bdr & h0' & [-> Hbdr]%returns_or_values & Hw).
    apply returns_bind in Hw as (sdr & h0' & [-> Hsdr]%returns_or_values & Hw).
    apply returns_ret in Hw as [-> _].
    exists bdr, sdr. do 2 (split; [done|]).
    apply returns_bind in H as (desc & h1 & Hdesc%returns_description & H).
    apply returns_bind in H as (opts & h2 & Hopts%returns_options & H).
    apply returns_bind in H as (b & h2' & Hb & H).
    apply returns_bind in H as (auto_conv & h3 & Hc & H).
    assert (Hac : resolved_auto_convert generate_auto_convert auto_convert
                    opts h2 auto_conv h3).
    { apply returns_auto_convert, returns_bind. by exists b, h2'. }
    apply returns_bind in H as (nm & h3' & [-> Hnm]%returns_name & H).
    apply returns_bind in H as (bd & h3' & [-> Hbd]%returns_or_values & H).
    apply returns_bind in H as (sd & h3' & [-> Hsd]%returns_or_values & H).
    apply returns_bind in H as (_sub & h4 & [-> Hd]%returns_alloc & H).
    apply returns_bind in H as (nm' & h4' & [-> Hnm']%returns_name & H).
    apply returns_alloc in H as [-> ->].
    exists desc, h1, opts, h2, auto_conv, h3, nm, bd, sd, (fresh (dom h3)),
      h4, nm', (fresh (dom h4)).
    by repeat split.
  - intros (bdr & sdr & Hbdr & Hsdr &
            desc & h1 & opts & h2 & auto_conv & h3 & nm & bd & sd & d & h4 &
            nm' & lr & Hdesc & Hopts & Hac & Hnm & Hbd & Hsd & [-> ->] &
            Hnm' & [-> ->] & ->).
    eexists. split.
    { apply returns_bind. exists bdr, h0.
      split; [by apply returns_or_values|].
      apply returns_bind. exists sdr, h0.
      split; [by apply returns_or_values|]. by apply returns_ret. }
    apply returns_bind. exists desc, h1.
    split; [by apply returns_description|].
    apply returns_bind. exists opts, h2.
    split; [by apply returns_options|].
    apply returns_auto_convert, returns_bind in Hac as (b & h2' & Hb & Hc).
    apply returns_bind. exists b, h2'. split; [done|].
    apply returns_bind. exists auto_conv, h3. split; [done|].
    apply returns_bind. exists nm, h3. split; [by apply returns_name|].
    apply returns_bind. exists bd, h3. split; [by apply returns_or_values|].
    apply returns_bind. exists sd, h3. split; [by apply returns_or_values|].
    apply returns_bind. eexists _, _. split; [by apply returns_alloc|].
    apply returns_bind. eexists nm', _. split; [by apply returns_name|].
    by apply returns_alloc.
Qed.

End runs.

Section calls_run.

Variable getdoc : val → M val.
Variable generate_options : val → val → M val.
Variable generate_auto_convert : val → M val.

Local Abbreviation call := (call getdoc generate_options generate_auto_convert).

(** What the two decorators have in common. *)
Lemma call_run f kw h0 cmd h r h' :
  decorated (call f kw) h0 cmd h r h' →
  ∃ desc h1 opts h2 auto_conv h3 items,
    resolved_description getdoc (kwarg kw "description") cmd h desc h1 ∧
    resolved_options generate_options (kwarg kw "options") cmd desc
      h1 opts h2 ∧
    resolved_auto_convert generate_auto_convert (kwarg kw "auto_convert")
      opts h2 auto_conv h3 ∧
    h3 ⊆ h' ∧
    descriptor_record h' r = Some items ∧
    common_fields items cmd desc auto_conv (kwarg kw "guild_ids") opts.
Proof.
  destruct f; cbn.
  - unfold call_cog_slash. case_decide; [|by intros ?%decorated_raise].
    intros (desc & h1 & opts & h2 & auto_conv & h3 & d & h4 & nm & lr &
            Hdesc & Hopts & Hac & Hd & Hnm & Hr & ->)%cog_slash_run.
    exists desc, h1, opts, h2, auto_conv, h3. eexists.
    do 3 (split; [done|]). split.
    { etrans; by eapply allocates_subseteq. }
    split; [by eapply descriptor_record_slash|]. by repeat split.
  - unfold call_cog_subcommand. case_decide; [|by intros ?%decorated_raise].
    destruct (kw !! "base") as [base|]; [|by intros ?%decorated_raise].
    intros (bdr & sdr & _ & _ &
            desc & h1 & opts & h2 & auto_conv & h3 & nm & bd & sd & d & h4 &
            nm' & lr & Hdesc & Hopts & Hac & _ & _ & _ & Hd & _ & Hr & ->)
           %cog_subcommand_run.
    exists desc, h1, opts, h2, auto_conv, h3. eexists.
    do 3 (split; [done|]). split.
    { etrans; by eapply allocates_subseteq. }
    split; [by eapply descriptor_record_subcommand|]. by repeat split.
Qed.

(** The name either descriptor is built with. *)
Lemma call_name_run f kw h0 cmd h r h' :
  decorated (call f kw) h0 cmd h r h' →
  ∃ nm, descriptor_name h' r = Some nm ∧
        resolved_name (kwarg kw "name") cmd h' nm ∧
        (f = CogSubcommand → field h' r "name" = Some nm).
Proof.
  destruct f; cbn.
  - unfold call_cog_slash. case_decide; [|by intros ?%decorated_raise].
    intros (desc & h1 & opts & h2 & auto_conv & h3 & d & h4 & nm & lr &
            _ & _ & _ & Hd & Hnm & Hr & ->)%cog_slash_run.
    destruct (descriptor_record_slash _ _ _ _ _ _ _ Hd Hr) as (Hlr & _ & _).
    exists nm. split; [unfold descriptor_name; by rewrite Hlr|]. split; [|done].
    by apply (resolved_name_subseteq _ _ h4), (allocates_subseteq _ _ _ _ Hr).
  - unfold call_cog_subcommand. case_decide; [|by intros ?%decorated_raise].
    destruct (kw !! "base") as [base|]; [|by intros ?%decorated_raise].
    intros (bdr & sdr & _ & _ &
            desc & h1 & opts & h2 & auto_conv & h3 & nm & bd & sd & d & h4 &
            nm' & lr & _ & _ & _ & Hnm & _ & _ & Hd & Hnm' & Hr & ->)
           %cog_subcommand_run.
    destruct (descriptor_record_subcommand _ _ _ _ _ _ _ _ _ Hd Hr)
      as (Hlr & _ & Hrec).
    pose proof (resolved_name_subseteq _ _ _ _ _ Hnm
                  (allocates_subseteq _ _ _ _ Hd)) as Hnm4.
    rewrite (resolved_name_inj _ _ _ _ _ Hnm4 Hnm') in *.
    exists nm'. split; [unfold descriptor_name; by rewrite Hlr|]. split.
    + by apply (resolved_name_subseteq _ _ h4), (allocates_subseteq _ _ _ _ Hr).
    + intros _. by rewrite (field_record _ _ _ _ Hrec).
Qed.

(** The two descriptions of the base and of the group. *)
Lemma call_subcommand_descriptions kw h0 cmd h r h' :
  decorated (call CogSubcommand kw) h0 cmd h r h' →
  ∃ base_description' subcommand_group_description' bd sd,
    resolved_or (kwarg kw "base_description") (kwarg kw "base_desc")
      h0 base_description' ∧
    resolved_or (kwarg kw "subcommand_group_description")
      (kwarg kw "sub_group_desc") h0 subcommand_group_description' ∧
    field h' r "base_desc" = Some bd ∧
    field h' r "sub_group_desc" = Some sd ∧
    resolved_or base_description' (VStr "No Description.") h' bd ∧
    resolved_or subcommand_group_description' (VStr "No Description.") h' sd.
Proof.
  cbn. unfold call_cog_subcommand. case_decide; [|by intros ?%decorated_raise].
  destruct (kw !! "base") as [base|]; [|by intros ?%decorated_raise].
  intros (bdr & sdr & Hbdr & Hsdr &
          desc & h1 & opts & h2 & auto_conv & h3 & nm & bd & sd & d & h4 &
          nm' & lr & _ & _ & _ & _ & Hbd & Hsd & Hd & _ & Hr & ->)
         %cog_subcommand_run.
  destruct (descriptor_record_subcommand _ _ _ _ _ _ _ _ _ Hd Hr)
    as (_ & _ & Hrec).
  assert (Hsub : h3 ⊆ h') by (etrans; by eapply allocates_subseteq).
  exists bdr, sdr, bd, sd. do 2 (split; [done|]).
  do 2 (split; [by rewrite (field_record _ _ _ _ Hrec)|]).
  split; by apply (resolved_or_subseteq _ _ h3).
Qed.

End calls_run.

(** ** Frame: what a run leaves alone *)

Lemma preserves_ret {A : Type} (a : A) : preserves (ret a).
Proof. intros h res h' [= _ <-]. done. Qed.

Lemma preserves_raise {A : Type} (e : exn) : preserves (raise (A := A) e).
Proof. intros h res h' [= _ <-]. done. Qed.

Lemma preserves_bind {A B : Type} (m : M A) (k : A → M B) :
  preserves m → (∀ a, preserves (k a)) → preserves (x <- m ;; k x).
Proof.
  intros Hm Hk h res h'. unfold bind.
  destruct (m h) as [[e|a] h1] eqn:Hmh.
  - intros [= _ <-]. by eapply Hm.
  - intros Hka. etrans; [by eapply Hm | by eapply Hk].
Qed.

Lemma preserves_deref l : preserves (deref l).
Proof. intros h res h'. unfold deref. destruct (h !! l); by intros [= _ <-]. Qed.

Lemma preserves_truth v : preserves (truth v).
Proof. intros h res h' ->%truth_store. done. Qed.

Lemma preserves_alloc o : preserves (alloc o).
Proof.
  intros h res h' [= _ <-]. apply insert_subseteq, not_elem_of_dom, is_fresh.
Qed.

Lemma preserves_or mx my : preserves mx → preserves my → preserves (mx <or> my).
Proof.
  intros Hx Hy. unfold py_or. apply preserves_bind; [done|]. intros x.
  apply preserves_bind; [apply preserves_truth|].
  intros []; [apply preserves_ret | done].
Qed.

Lemma preserves_get__name__ cmd : preserves (get__name__ cmd).
Proof.
  destruct cmd; cbn; try apply preserves_raise.
  apply preserves_bind; [apply preserves_deref|].
  intros []; try apply preserves_raise. apply preserves_ret.
Qed.

Lemma preserves_if {A : Type} (b : bool) (m1 m2 : M A) :
  preserves m1 → preserves m2 → preserves (if b then m1 else m2).
Proof. by destruct b. Qed.

Create HintDb frame.
#[local] Hint Resolve preserves_ret preserves_raise preserves_deref
  preserves_truth preserves_alloc preserves_or preserves_get__name__
  preserves_if : frame.

Ltac frame :=
  repeat first
    [ apply preserves_bind; [|intro]
    | apply preserves_or
    | apply preserves_if
    | unfold dict_display, CogCommandObject, CogSubcommandObject;
        apply preserves_alloc
    | solve [auto with frame] ].

(** The decorator expressions only test truth values: they leave the store
    as it is, whatever they return. *)
Lemma call_store getdoc generate_options generate_auto_convert f kw h0 res h0' :
  call getdoc generate_options generate_auto_convert f kw h0 = (res, h0') →
  h0' = h0.
Proof.
  destruct f; cbn.
  - unfold call_cog_slash. case_decide; by intros [= _ <-].
  - unfold call_cog_subcommand. case_decide; [|by intros [= _ <-]].
    destruct (kw !! "base"); [|by intros [= _ <-]].
    unfold cog_subcommand, bind, py_or, bind, ret.
    repeat match goal with
           | |- context [truth ?v h0] =>
               let Ht := fresh "Ht" in
               destruct (truth v h0) as [[?|[]] ?] eqn:Ht;
               apply truth_store in Ht as ->
           end; by intros [= _ <-].
Qed.

Lemma resolved_description_subseteq getdoc description cmd h desc h1 :
  resolved_description getdoc description cmd h desc h1 →
  preserves (getdoc cmd) → h ⊆ h1.
Proof.
  intros [(_ & _ & ->)|(_ & doc & Hdoc & _)] Hpres; [done|]. by eapply Hpres.
Qed.

Lemma demo_getdoc_preserves cmd : preserves (demo_getdoc cmd).
Proof.
  destruct cmd; cbn; try apply preserves_ret.
  apply preserves_bind; [apply preserves_deref|].
  intros []; apply preserves_ret.
Qed.

Lemma demo_create_options_preserves desc params :
  preserves (demo_create_options desc params).
Proof.
  induction params as [|[p t] params IH]; cbn; [apply preserves_ret|]. frame.
Qed.

Lemma demo_generate_options_preserves cmd desc :
  preserves (demo_generate_options cmd desc).
Proof.
  destruct cmd; cbn; try apply preserves_raise.
  apply preserves_bind; [apply preserves_deref|].
  intros []; try apply preserves_raise.
  apply preserves_bind; [apply demo_create_options_preserves|].
  intros os. apply preserves_alloc.
Qed.

Lemma demo_name_types_preserves options : preserves (demo_name_types options).
Proof.
  induction options as [|[| | | |l] options IH]; cbn;
    try apply preserves_ret; try apply preserves_raise.
  apply preserves_bind; [apply preserves_deref|].
  intros []; try apply preserves_raise.
  destruct (dict_get _ _); [|apply preserves_raise].
  destruct (dict_get _ _); [|apply preserves_raise]. frame.
Qed.

Lemma demo_generate_auto_convert_preserves opts :
  preserves (demo_generate_auto_convert opts).
Proof.
  destruct opts; cbn; try apply preserves_raise.
  apply preserves_bind; [apply preserves_deref|].
  intros []; try apply preserves_raise.
  apply preserves_bind; [apply demo_name_types_preserves|].
  intros kvs. apply preserves_alloc.
Qed.

(** ** Keyword arguments that make no difference *)

Lemma kwarg_insert kw k v : kwarg (<[k := v]> kw) k = v.
Proof. unfold kwarg. by rewrite lookup_insert_eq. Qed.

Lemma kwarg_delete kw k : kwarg (delete k kw) k = VNone.
Proof. unfold kwarg. by rewrite lookup_delete_eq. Qed.

Lemma kwarg_delete_ne kw k k' : k ≠ k' → kwarg (delete k kw) k' = kwarg kw k'.
Proof. intros. unfold kwarg. by rewrite lookup_delete_ne. Qed.

Lemma kwarg_same_but kw1 kw2 k k' :
  delete k kw1 = delete k kw2 → k ≠ k' → kwarg kw1 k' = kwarg kw2 k'.
Proof.
  intros Heq Hne. rewrite <-(kwarg_delete_ne kw1 k k'), <-(kwarg_delete_ne kw2 k k');
    [by rewrite Heq | done..].
Qed.

Lemma lookup_same_but (kw1 kw2 : gmap string val) k k' :
  delete k kw1 = delete k kw2 → k ≠ k' → kw1 !! k' = kw2 !! k'.
Proof.
  intros Heq Hne.
  rewrite <-(lookup_delete_ne kw1 k k'), <-(lookup_delete_ne kw2 k k');
    [by rewrite Heq | done..].
Qed.

Lemma keywords_same_but (kw1 kw2 : gmap string val) k (K : gset string) :
  delete k kw1 = delete k kw2 → k ∈ K → dom kw1 ⊆ K → dom kw2 ⊆ K.
Proof.
  intros Heq Hk H1 x Hx. destruct (decide (x = k)) as [->|Hne]; [done|].
  apply H1. apply elem_of_dom. apply elem_of_dom in Hx.
  by rewrite (lookup_same_but kw1 kw2 k x).
Qed.

Lemma elem_of_cog_slash_keywords k :
  k ∈ ["name"; "description"; "auto_convert"; "guild_ids"; "options"] →
  k ∈ cog_slash_keywords.
Proof. unfold cog_slash_keywords. set_solver. Qed.

Lemma elem_of_cog_subcommand_keywords k :
  k ∈ ["base"; "subcommand_group"; "name"; "description";
       "base_description"; "base_desc";
       "subcommand_group_description"; "sub_group_desc";
       "auto_convert"; "guild_ids"; "options"] →
  k ∈ cog_subcommand_keywords.
Proof. unfold cog_subcommand_keywords. set_solver. Qed.

(** With an empty list for [options] neither helper has a say. *)
Lemma resolved_given_empty g1 ga1 g2 ga2 options a cmd desc h1 opts h2 ac h3 :
  empty_list h1 options →
  resolved_options g1 options cmd desc h1 opts h2 →
  resolved_auto_convert ga1 a opts h2 ac h3 →
  opts = options ∧ ac = a ∧
  resolved_options g2 options cmd desc h1 opts h2 ∧
  resolved_auto_convert ga2 a opts h2 ac h3.
Proof.
  intros Hemp Hopts Hac.
  assert (Hne : options ≠ VNone) by (destruct Hemp as (l & -> & _); done).
  destruct Hopts as [[-> _]|(_ & -> & ->)]; [done|].
  pose proof (empty_list_falsy _ _ Hemp) as Hf.
  destruct Hac as [[Ht _]|(_ & -> & ->)];
    [by destruct (truthy_falsy h1 options)|].
  repeat split; [by right | by right].
Qed.

Section runs_compared.

Variable getdoc : val → M val.
Variable generate_options : val → val → M val.
Variable generate_auto_convert : val → M val.

Lemma resolved_auto_convert_truthy a1 a2 opts h2 auto_conv h3 :
  truthy h2 opts →
  resolved_auto_convert generate_auto_convert a1 opts h2 auto_conv h3 →
  resolved_auto_convert generate_auto_convert a2 opts h2 auto_conv h3.
Proof.
  intros Ht [[_ ?]|[Hf _]]; [by left|]. by destruct (truthy_falsy h2 opts).
Qed.

(** When the options kept in the descriptor are a non-empty list at the end
    of the run, they were true when they were tested. *)
Lemma tested_truthy a opts h2 auto_conv h3 h' :
  resolved_auto_convert generate_auto_convert a opts h2 auto_conv h3 →
  h3 ⊆ h' → nonempty_list h' opts → truthy h2 opts.
Proof.
  intros [[? _]|(Hf & _ & ->)] Hsub Hne; [done|].
  destruct (truthy_falsy h' opts); [by apply nonempty_list_truthy|].
  by apply (falsy_subseteq h2).
Qed.

Lemma cog_slash_auto_convert_ignored name description a1 a2 guild_ids options
    h0 cmd h r h' :
  decorated (cog_slash getdoc generate_options generate_auto_convert
               name description a1 guild_ids options) h0 cmd h r h' →
  (∀ desc h1 opts h2,
     resolved_description getdoc description cmd h desc h1 →
     resolved_options generate_options options cmd desc h1 opts h2 →
     truthy h2 opts) →
  decorated (cog_slash getdoc generate_options generate_auto_convert
               name description a2 guild_ids options) h0 cmd h r h'.
Proof.
  rewrite !cog_slash_run.
  intros (desc & h1 & opts & h2 & auto_conv & h3 & d & h4 & nm & lr &
          Hdesc & Hopts & Hac & Hrest) Htested.
  exists desc, h1, opts, h2, auto_conv, h3, d, h4, nm, lr.
  do 2 (split; [done|]). split; [|done].
  apply (resolved_auto_convert_truthy a1); [|done]. by eapply Htested.
Qed.

Lemma cog_subcommand_auto_convert_ignored base subcommand_group name
    description base_description base_desc subcommand_group_description
    sub_group_desc a1 a2 guild_ids options h0 cmd h r h' :
  decorated (cog_subcommand getdoc generate_options generate_auto_convert
               base subcommand_group name description
               base_description base_desc
               subcommand_group_description sub_group_desc
               a1 guild_ids options) h0 cmd h r h' →
  (∀ desc h1 opts h2,
     resolved_description getdoc description cmd h desc h1 →
     resolved_options generate_options options cmd desc h1 opts h2 →
     truthy h2 opts) →
  decorated (cog_subcommand getdoc generate_options generate_auto_convert
               base subcommand_group name description
               base_description base_desc
               subcommand_group_description sub_group_desc
               a2 guild_ids options) h0 cmd h r h'.
Proof.
  rewrite !cog_subcommand_run.
  intros (bdr & sdr & Hbdr & Hsdr &
          desc & h1 & opts & h2 & auto_conv & h3 & nm & bd & sd & d & h4 &
          nm' & lr & Hdesc & Hopts & Hac & Hrest) Htested.
  exists bdr, sdr. do 2 (split; [done|]).
  exists desc, h1, opts, h2, auto_conv, h3, nm, bd, sd, d, h4, nm', lr.
  do 2 (split; [done|]). split; [|done].
  apply (resolved_auto_convert_truthy a1); [|done]. by eapply Htested.
Qed.

(** The same for either decorator, called with keywords. *)
Lemma call_auto_convert_ignored f kw kw' h0 cmd h r h' :
  decorated (call getdoc generate_options generate_auto_convert f kw)
    h0 cmd h r h' →
  (∀ desc h1 opts h2,
     resolved_description getdoc (kwarg kw "description") cmd h desc h1 →
     resolved_options generate_options (kwarg kw "options") cmd desc
       h1 opts h2 →
     truthy h2 opts) →
  delete "auto_convert" kw' = delete "auto_convert" kw →
  decorated (call getdoc generate_options generate_auto_convert f kw')
    h0 cmd h r h'.
Proof.
  intros Hrun Htested Hkw.
  assert (Hk : ∀ k, "auto_convert" ≠ k → kwarg kw' k = kwarg kw k).
  { intros k. by apply kwarg_same_but. }
  destruct f; cbn in *.
  - unfold call_cog_slash in *.
    case_decide as Hdom; [|by apply decorated_raise in Hrun].
    rewrite decide_True
      by (apply (keywords_same_but kw kw' "auto_convert"); done).
    rewrite (Hk "name"), (Hk "description"), (Hk "guild_ids"),
      (Hk "options") by done.
    by eapply cog_slash_auto_convert_ignored.
  - unfold call_cog_subcommand in *.
    case_decide as Hdom; [|by apply decorated_raise in Hrun].
    rewrite decide_True
      by (apply (keywords_same_but kw kw' "auto_convert"); done).
    rewrite (lookup_same_but kw' kw "auto_convert" "base") by done.
    destruct (kw !! "base") as [base|]; [|by apply decorated_raise in Hrun].
    rewrite (Hk "subcommand_group"), (Hk "name"), (Hk "description"),
      (Hk "base_description"), (Hk "base_desc"),
      (Hk "subcommand_group_description"), (Hk "sub_group_desc"),
      (Hk "guild_ids"), (Hk "options") by done.
    by eapply cog_subcommand_auto_convert_ignored.
Qed.

End runs_compared.

(** ** Arguments that are false *)

Lemma resolved_or_same x1 x2 y h v :
  same_or_falsy x1 x2 → resolved_or x1 y h v → resolved_or x2 y h v.
Proof.
  intros [->|[H1 H2]]; [done|].
  intros [[Ht _]|[_ ->]]; [by destruct (plain_not_truthy h x1)|].
  right. split; [by apply plain_falsy | done].
Qed.

Lemma resolved_name_same n1 n2 cmd h nm :
  same_or_falsy n1 n2 → resolved_name n1 cmd h nm → resolved_name n2 cmd h nm.
Proof.
  intros [->|[H1 H2]]; [done|].
  intros [[Ht _]|[_ Hfn]]; [by destruct (plain_not_truthy h n1)|].
  right. split; [by apply plain_falsy | done].
Qed.

Lemma resolved_description_same getdoc d1 d2 cmd h desc h1 :
  same_or_falsy d1 d2 →
  resolved_description getdoc d1 cmd h desc h1 →
  resolved_description getdoc d2 cmd h desc h1.
Proof.
  intros [->|[H1 H2]]; [done|].
  intros [[Ht _]|[_ Hdoc]]; [by destruct (plain_not_truthy h d1)|].
  right. split; [by apply plain_falsy | done].
Qed.

Lemma resolved_or_alias_same x1 x2 y h v :
  same_or_falsy x1 x2 → resolved_or x1 y h v →
  ∃ v', resolved_or x2 y h v' ∧ same_or_falsy v v'.
Proof.
  intros [->|[H1 H2]] Hv; [exists v; split; [done | by left]|].
  destruct Hv as [[Ht _]|[_ ->]]; [by destruct (plain_not_truthy h x1)|].
  exists y. split; [|by left]. right. split; [by apply plain_falsy | done].
Qed.

Section falsy_arguments.

Variable getdoc : val → M val.
Variable generate_options : val → val → M val.
Variable generate_auto_convert : val → M val.

Lemma cog_slash_same n1 n2 d1 d2 auto_convert guild_ids options h0 cmd h r h' :
  same_or_falsy n1 n2 → same_or_falsy d1 d2 →
  decorated (cog_slash getdoc generate_options generate_auto_convert
               n1 d1 auto_convert guild_ids options) h0 cmd h r h' →
  decorated (cog_slash getdoc generate_options generate_auto_convert
               n2 d2 auto_convert guild_ids options) h0 cmd h r h'.
Proof.
  intros Hn Hd. rewrite !cog_slash_run.
  intros (desc & h1 & opts & h2 & auto_conv & h3 & d & h4 & nm & lr &
          Hdesc & Hopts & Hac & Hal & Hnm & Hrest).
  exists desc, h1, opts, h2, auto_conv, h3, d, h4, nm, lr.
  split; [by apply (resolved_description_same _ d1)|].
  do 3 (split; [done|]).
  split; [by apply (resolved_name_same n1)|done].
Qed.

Lemma cog_subcommand_same base subcommand_group n1 n2 d1 d2 b1 b2 base_desc
    s1 s2 sub_group_desc auto_convert guild_ids options h0 cmd h r h' :
  same_or_falsy n1 n2 → same_or_falsy d1 d2 →
  same_or_falsy b1 b2 → same_or_falsy s1 s2 →
  decorated (cog_subcommand getdoc generate_options generate_auto_convert
               base subcommand_group n1 d1 b1 base_desc s1 sub_group_desc
               auto_convert guild_ids options) h0 cmd h r h' →
  decorated (cog_subcommand getdoc generate_options generate_auto_convert
               base subcommand_group n2 d2 b2 base_desc s2 sub_group_desc
               auto_convert guild_ids options) h0 cmd h r h'.
Proof.
  intros Hn Hd Hb Hs. rewrite !cog_subcommand_run.
  intros (bdr & sdr & Hbdr & Hsdr &
          desc & h1 & opts & h2 & auto_conv & h3 & nm & bd & sd & d & h4 &
          nm' & lr & Hdesc & Hopts & Hac & Hnm & Hbd & Hsd & Hal & Hnm' &
          Hrest).
  destruct (resolved_or_alias_same _ _ _ _ _ Hb Hbdr) as (bdr' & Hbdr' & Hbb).
  destruct (resolved_or_alias_same _ _ _ _ _ Hs Hsdr) as (sdr' & Hsdr' & Hss).
  exists bdr', sdr'. do 2 (split; [done|]).
  exists desc, h1, opts, h2, auto_conv, h3, nm, bd, sd, d, h4, nm', lr.
  split; [by apply (resolved_description_same _ d1)|].
  do 2 (split; [done|]).
  split; [by apply (resolved_name_same n1)|].
  split; [by apply (resolved_or_same bdr)|].
  split; [by apply (resolved_or_same sdr)|].
  split; [done|].
  split; [by apply (resolved_name_same n1)|done].
Qed.

End falsy_arguments.

Section calls_compared.

Variable getdoc : val → M val.
Variable generate_options : val → val → M val.
Variable generate_auto_convert : val → M val.

Local Abbreviation call := (call getdoc generate_options generate_auto_convert).

(** Two calls whose keywords are the same but for one that only goes
    through [or], where they are the same to [or]. *)
Lemma call_same f kw1 kw2 k h0 cmd h r h' :
  k ∈ defaulted_keywords f →
  delete k kw1 = delete k kw2 →
  same_or_falsy (kwarg kw1 k) (kwarg kw2 k) →
  decorated (call f kw1) h0 cmd h r h' →
  decorated (call f kw2) h0 cmd h r h'.
Proof.
  intros Hk Hkw Hsame Hrun.
  assert (Hother : ∀ k', k ≠ k' → kwarg kw1 k' = kwarg kw2 k').
  { intros k'. by apply kwarg_same_but. }
  assert (Hall : ∀ k', same_or_falsy (kwarg kw1 k') (kwarg kw2 k')).
  { intros k'. destruct (decide (k = k')) as [<-|?]; [done|].
    left. by apply Hother. }
  destruct f; cbn in *.
  - unfold call_cog_slash in *.
    case_decide as Hdom; [|by apply decorated_raise in Hrun].
    rewrite decide_True.
    2:{ apply (keywords_same_but kw1 kw2 k); [done| |done].
        apply elem_of_cog_slash_keywords. set_solver. }
    assert (Hrest : kwarg kw1 "auto_convert" = kwarg kw2 "auto_convert" ∧
                    kwarg kw1 "guild_ids" = kwarg kw2 "guild_ids" ∧
                    kwarg kw1 "options" = kwarg kw2 "options").
    { repeat split; apply Hother; set_solver. }
    destruct Hrest as (<- & <- & <-).
    by apply (cog_slash_same _ _ _ (kwarg kw1 "name") _
                (kwarg kw1 "description")).
  - unfold call_cog_subcommand in *.
    case_decide as Hdom; [|by apply decorated_raise in Hrun].
    rewrite decide_True.
    2:{ apply (keywords_same_but kw1 kw2 k); [done| |done].
        apply elem_of_cog_subcommand_keywords. set_solver. }
    rewrite <-(lookup_same_but kw1 kw2 k "base") by (done || set_solver).
    destruct (kw1 !! "base") as [base|]; [|by apply decorated_raise in Hrun].
    assert (Hrest :
      kwarg kw1 "subcommand_group" = kwarg kw2 "subcommand_group" ∧
      kwarg kw1 "base_desc" = kwarg kw2 "base_desc" ∧
      kwarg kw1 "sub_group_desc" = kwarg kw2 "sub_group_desc" ∧
      kwarg kw1 "auto_convert" = kwarg kw2 "auto_convert" ∧
      kwarg kw1 "guild_ids" = kwarg kw2 "guild_ids" ∧
      kwarg kw1 "options" = kwarg kw2 "options").
    { repeat split; apply Hother; set_solver. }
    destruct Hrest as (<- & <- & <- & <- & <- & <-).
    by apply (cog_subcommand_same _ _ _ _ _ (kwarg kw1 "name") _
                (kwarg kw1 "description") _
                (kwarg kw1 "base_description") _ _
                (kwarg kw1 "subcommand_group_description")).
Qed.

End calls_compared.

(** ** The claims *)

Section claims.

Variable getdoc : val → M val.
Variable generate_options : val → val → M val.
Variable generate_auto_convert : val → M val.

Local Abbreviation call := (call getdoc generate_options generate_auto_convert).

(** C1. For both decorators: when the [options] keyword is [None] (also
    when it is left out) the option list kept under [api_options] is what
    [generate_options(cmd, desc)] returned for the resolved description
    [desc]; otherwise it is the [options] argument itself. *)
Theorem api_options_generated_or_given f kw h0 cmd h r h' :
  decorated (call f kw) h0 cmd h r h' →
  ∃ desc h1 opts h2,
    resolved_description getdoc (kwarg kw "description") cmd h desc h1 ∧
    field h' r "description" = Some desc ∧
    field h' r "api_options" = Some opts ∧
    (kwarg kw "options" = VNone →
     returns (generate_options cmd desc) h1 opts h2) ∧
    (kwarg kw "options" ≠ VNone → opts = kwarg kw "options").
Proof.
  intros (desc & h1 & opts & h2 & auto_conv & h3 & items & Hdesc & Hopts &
          _ & _ & Hrec & Hf)%call_run.
  destruct Hf as (_ & Hd & _ & _ & Hopt).
  exists desc, h1, opts, h2. split; [done|].
  do 2 (split; [by rewrite (field_record _ _ _ _ Hrec)|]).
  destruct Hopts as [[Hn Hgen]|(Hn & -> & ->)]; split; intros; done.
Qed.

(** C2. For both decorators the description kept in the descriptor is the
    [description] keyword if it is true, otherwise [inspect.getdoc(cmd)]
    if that is true, otherwise ["No description"]. *)
Theorem description_fallback f kw h0 cmd h r h' :
  decorated (call f kw) h0 cmd h r h' →
  ∃ desc h1,
    field h' r "description" = Some desc ∧
    ((truthy h (kwarg kw "description") ∧ desc = kwarg kw "description") ∨
     (falsy h (kwarg kw "description") ∧
      ∃ doc, returns (getdoc cmd) h doc h1 ∧
             ((truthy h1 doc ∧ desc = doc) ∨
              (falsy h1 doc ∧ desc = VStr "No description")))).
Proof.
  intros (desc & h1 & opts & h2 & auto_conv & h3 & items & Hdesc & _ &
          _ & _ & Hrec & Hf)%call_run.
  destruct Hf as (_ & Hd & _).
  exists desc, h1. split; [by rewrite (field_record _ _ _ _ Hrec)|].
  destruct Hdesc as [(? & -> & _)|(? & doc & ? & Hor)]; [by left|].
  right. split; [done|]. by exists doc.
Qed.

(** C3. For both decorators the map kept under [auto_convert] follows the
    resolved option list [opts], the one kept under [api_options]: a
    non-empty list gives [generate_auto_convert(opts)], an empty list or
    [None] gives the [auto_convert] argument. *)
Theorem auto_convert_follows_options f kw h0 cmd h r h' :
  decorated (call f kw) h0 cmd h r h' →
  ∃ desc h1 opts h2 auto_conv h3,
    resolved_description getdoc (kwarg kw "description") cmd h desc h1 ∧
    resolved_options generate_options (kwarg kw "options") cmd desc
      h1 opts h2 ∧
    field h' r "api_options" = Some opts ∧
    field h' r "auto_convert" = Some auto_conv ∧
    (nonempty_list h2 opts →
     returns (generate_auto_convert opts) h2 auto_conv h3) ∧
    (empty_list h2 opts ∨ opts = VNone →
     auto_conv = kwarg kw "auto_convert").
Proof.
  intros (desc & h1 & opts & h2 & auto_conv & h3 & items & Hdesc & Hopts &
          Hac & _ & Hrec & Hf)%call_run.
  destruct Hf as (_ & _ & Hfa & _ & Hfo).
  exists desc, h1, opts, h2, auto_conv, h3.
  do 2 (split; [done|]).
  do 2 (split; [by rewrite (field_record _ _ _ _ Hrec)|]).
  split.
  - intros Ht%nonempty_list_truthy.
    destruct Hac as [[_ ?]|[Hf _]]; [done|].
    by destruct (truthy_falsy h2 opts).
  - intros Hemp.
    assert (Hf : falsy h2 opts).
    { destruct Hemp as [?| ->]; [by apply empty_list_falsy|].
      by apply plain_truth_returns. }
    destruct Hac as [[Ht _]|(_ & -> & _)]; [|done].
    by destruct (truthy_falsy h2 opts).
Qed.

(** C5. In [cog_subcommand] the base description is [base_description] when
    that is true and the alias [base_desc] otherwise, the group description
    is [subcommand_group_description] when that is true and the alias
    [sub_group_desc] otherwise; the descriptor keeps each of the two under
    [base_desc] and [sub_group_desc] when it is true, and
    ["No Description."] when it is false. *)
Theorem alias_pairs_resolved kw h0 cmd h r h' :
  decorated (call CogSubcommand kw) h0 cmd h r h' →
  ∃ base_description' subcommand_group_description' bd sd,
    resolved_or (kwarg kw "base_description") (kwarg kw "base_desc")
      h0 base_description' ∧
    resolved_or (kwarg kw "subcommand_group_description")
      (kwarg kw "sub_group_desc") h0 subcommand_group_description' ∧
    field h' r "base_desc" = Some bd ∧
    field h' r "sub_group_desc" = Some sd ∧
    ((truthy h' base_description' ∧ bd = base_description') ∨
     (falsy h' base_description' ∧ bd = VStr "No Description.")) ∧
    ((truthy h' subcommand_group_description' ∧
      sd = subcommand_group_description') ∨
     (falsy h' subcommand_group_description' ∧ sd = VStr "No Description.")).
Proof.
  intros (bdr & sdr & bd & sd & Hbdr & Hsdr & Hfb & Hfs & Hbd & Hsd)
         %call_subcommand_descriptions.
  by exists bdr, sdr, bd, sd.
Qed.

(** C6. The wrapper of [cog_slash] returns exactly when the keywords are
    those of the signature and the description, the options, the
    auto-conversion map and the name resolve; what it returns is a new
    [CogCommandObject] made from the name ([name] if it is true, otherwise
    [cmd.__name__]) and a new dict with the six items [func] (which is
    [cmd]), [description], [auto_convert], [guild_ids], [api_options] and
    [has_subcommands]. *)
Theorem cog_slash_returns_command_object kw h0 cmd h r h' :
  decorated (call CogSlash kw) h0 cmd h r h' ↔
  dom kw ⊆ cog_slash_keywords ∧
  ∃ desc h1 opts h2 auto_conv h3 d h4 nm lr,
    resolved_description getdoc (kwarg kw "description") cmd h desc h1 ∧
    resolved_options generate_options (kwarg kw "options") cmd desc
      h1 opts h2 ∧
    resolved_auto_convert generate_auto_convert (kwarg kw "auto_convert")
      opts h2 auto_conv h3 ∧
    allocates h3
      (ODict [ (VStr "func", cmd);
               (VStr "description", desc);
               (VStr "auto_convert", auto_conv);
               (VStr "guild_ids", kwarg kw "guild_ids");
               (VStr "api_options", opts);
               (VStr "has_subcommands", VBool false) ])
      d h4 ∧
    resolved_name (kwarg kw "name") cmd h4 nm ∧
    allocates h4 (OCogCommandObject nm (VRef d)) lr h' ∧
    r = VRef lr.
Proof.
  cbn. unfold call_cog_slash. case_decide as Hkw.
  - rewrite cog_slash_run. unfold slash_record. split; [by split|by intros [_ ?]].
  - split; [by intros ?%decorated_raise | by intros [? _]].
Qed.

(** C7. The wrapper of [cog_subcommand] returns exactly when the keywords
    are those of the signature, [base] is among them and every step
    resolves; what it returns is a new [CogSubcommandObject] made from a new
    dict with the eight items [func], [name], [description], [base_desc],
    [sub_group_desc], [auto_convert], [guild_ids] and [api_options], the
    base name, the subcommand name ([name] if it is true, otherwise
    [cmd.__name__], the same value as in the dict) and the subcommand group,
    which is [None] when the keyword was left out. *)
Theorem cog_subcommand_returns_subcommand_object kw h0 cmd h r h' :
  decorated (call CogSubcommand kw) h0 cmd h r h' ↔
  dom kw ⊆ cog_subcommand_keywords ∧
  ∃ base base_description' subcommand_group_description',
    kw !! "base" = Some base ∧
    resolved_or (kwarg kw "base_description") (kwarg kw "base_desc")
      h0 base_description' ∧
    resolved_or (kwarg kw "subcommand_group_description")
      (kwarg kw "sub_group_desc") h0 subcommand_group_description' ∧
    ∃ desc h1 opts h2 auto_conv h3 nm bd sd d h4 lr,
      resolved_description getdoc (kwarg kw "description") cmd h desc h1 ∧
      resolved_options generate_options (kwarg kw "options") cmd desc
        h1 opts h2 ∧
      resolved_auto_convert generate_auto_convert (kwarg kw "auto_convert")
        opts h2 auto_conv h3 ∧
      resolved_name (kwarg kw "name") cmd h3 nm ∧
      resolved_or base_description' (VStr "No Description.") h3 bd ∧
      resolved_or subcommand_group_description' (VStr "No Description.")
        h3 sd ∧
      allocates h3
        (ODict [ (VStr "func", cmd);
                 (VStr "name", nm);
                 (VStr "description", desc);
                 (VStr "base_desc", bd);
                 (VStr "sub_group_desc", sd);
                 (VStr "auto_convert", auto_conv);
                 (VStr "guild_ids", kwarg kw "guild_ids");
                 (VStr "api_options", opts) ])
        d h4 ∧
      allocates h4
        (OCogSubcommandObject (VRef d) base nm
           match kw !! "subcommand_group" with
           | Some group => group
           | None => VNone
           end)
        lr h' ∧
      r = VRef lr.
Proof.
  cbn. unfold call_cog_subcommand. case_decide as Hkw;
    [|split; [by intros ?%decorated_raise | by intros [? _]]].
  destruct (kw !! "base") as [base|] eqn:Hbase;
    [|split; [by intros ?%decorated_raise
             | by intros (_ & ? & ? & ? & ? & _)]].
  rewrite cog_subcommand_run. unfold subcommand_record. split.
  - intros (bdr & sdr & Hbdr & Hsdr &
            desc & h1 & opts & h2 & auto_conv & h3 & nm & bd & sd & d & h4 &
            nm' & lr & Hdesc & Hopts & Hac & Hnm & Hbd & Hsd & Hd & Hnm' &
            Hr & ->).
    split; [done|]. exists base, bdr, sdr. do 3 (split; [done|]).
    exists desc, h1, opts, h2, auto_conv, h3, nm, bd, sd, d, h4, lr.
    do 7 (split; [done|]). split; [|done].
    pose proof (resolved_name_subseteq _ _ _ _ _ Hnm
                  (allocates_subseteq _ _ _ _ Hd)) as Hnm4.
    by rewrite (resolved_name_inj _ _ _ _ _ Hnm4 Hnm').
  - intros (_ & base' & bdr & sdr & [= <-] & Hbdr & Hsdr &
            desc & h1 & opts & h2 & auto_conv & h3 & nm & bd & sd & d & h4 &
            lr & Hdesc & Hopts & Hac & Hnm & Hbd & Hsd & Hd & Hr & ->).
    exists bdr, sdr. do 2 (split; [done|]).
    exists desc, h1, opts, h2, auto_conv, h3, nm, bd, sd, d, h4, nm, lr.
    do 7 (split; [done|]). split; [|done].
    by apply (resolved_name_subseteq _ _ h3), (allocates_subseteq _ _ _ _ Hd).
Qed.

(** C8. Evaluating either decorator expression leaves the store as it is.
    The descriptor its wrapper returns keeps [cmd] itself under [func] and
    the [guild_ids] argument itself under [guild_ids].  The wrapper changes
    no object: when [inspect.getdoc] and the two helpers leave the objects
    they find unchanged, every object of the store the wrapper starts in,
    the function, the arguments and what they refer to, is unchanged when it
    is done. *)
Theorem decoration_changes_no_object f kw h0 wrapper h0' cmd :
  returns (call f kw) h0 wrapper h0' →
  h0' = h0 ∧
  (∀ h r h',
     returns (wrapper cmd) h r h' →
     field h' r "func" = Some cmd ∧
     field h' r "guild_ids" = Some (kwarg kw "guild_ids")) ∧
  (preserves (getdoc cmd) →
   (∀ desc, preserves (generate_options cmd desc)) →
   (∀ opts, preserves (generate_auto_convert opts)) →
   ∀ h res h' l o,
     wrapper cmd h = (res, h') → h !! l = Some o → h' !! l = Some o).
Proof.
  intros Hw. pose proof (call_store _ _ _ _ _ _ _ _ Hw) as ->.
  split; [done|]. split.
  - intros h r h' Hr.
    assert (Hdec : decorated (call f kw) h0 cmd h r h') by by exists wrapper.
    apply call_run in Hdec
      as (desc & h1 & opts & h2 & auto_conv & h3 & items & _ & _ & _ & _ &
          Hrec & Hfunc & _ & _ & Hguild & _).
    by rewrite !(field_record _ _ _ _ Hrec).
  - intros Hdoc Hgen Hconv h res h' l o Hrun Hl.
    assert (Hpres : preserves (wrapper cmd)); [|by eapply lookup_weaken, Hpres].
    clear Hrun Hl. destruct f; cbn in Hw.
    + unfold call_cog_slash in Hw.
      case_decide; [|by apply returns_raise in Hw].
      apply returns_ret in Hw as [-> _]. frame.
    + unfold call_cog_subcommand in Hw.
      case_decide; [|by apply returns_raise in Hw].
      destruct (kw !! "base"); [|by apply returns_raise in Hw].
      apply returns_bind in Hw as (bdr & ? & _ & Hw).
      apply returns_bind in Hw as (sdr & ? & _ & Hw).
      apply returns_ret in Hw as [-> _]. frame.
Qed.

(** C9. An empty string is as good as a keyword left out.  For
    [description] and [name] in both decorators, and for [base_description]
    and [subcommand_group_description] in [cog_subcommand], the call with
    the empty string and the call without the keyword return the same.
    With [description=""] the descriptor keeps the docstring or the
    placeholder, never the empty string; with [name=""] it is named
    [cmd.__name__]; with [base_description=""] or
    [subcommand_group_description=""] it keeps what the alias gives. *)
Theorem falsy_strings_are_missing f kw h0 cmd h r h' :
  (∀ k, k ∈ defaulted_keywords f →
     decorated (call f (<[k := VStr ""]> kw)) h0 cmd h r h' ↔
     decorated (call f (delete k kw)) h0 cmd h r h') ∧
  (decorated (call f kw) h0 cmd h r h' →
   (kwarg kw "description" = VStr "" →
    ∃ doc h1 desc,
      returns (getdoc cmd) h doc h1 ∧
      ((truthy h1 doc ∧ desc = doc) ∨
       (falsy h1 doc ∧ desc = VStr "No description")) ∧
      field h' r "description" = Some desc ∧
      desc ≠ VStr "") ∧
   (kwarg kw "name" = VStr "" →
    ∃ fn, is_function h' cmd fn ∧
          descriptor_name h' r = Some (VStr (__name__ fn))) ∧
   (f = CogSubcommand → kwarg kw "base_description" = VStr "" →
    ∃ bd,
      field h' r "base_desc" = Some bd ∧
      ((truthy h' (kwarg kw "base_desc") ∧ bd = kwarg kw "base_desc") ∨
       (falsy h' (kwarg kw "base_desc") ∧ bd = VStr "No Description."))) ∧
   (f = CogSubcommand → kwarg kw "subcommand_group_description" = VStr "" →
    ∃ sd,
      field h' r "sub_group_desc" = Some sd ∧
      ((truthy h' (kwarg kw "sub_group_desc") ∧
        sd = kwarg kw "sub_group_desc") ∨
       (falsy h' (kwarg kw "sub_group_desc") ∧
        sd = VStr "No Description.")))).
Proof.
  split.
  - intros k Hk. split; apply call_same with (k := k); try done.
    + by rewrite delete_insert_eq, delete_delete_eq.
    + rewrite kwarg_insert, kwarg_delete. by right.
    + by rewrite delete_insert_eq, delete_delete_eq.
    + rewrite kwarg_insert, kwarg_delete. by right.
  - intros Hrun. repeat split.
    + intros Hd.
      apply call_run in Hrun
        as (desc & h1 & opts & h2 & auto_conv & h3 & items & Hdesc & _ & _ &
            _ & Hrec & _ & Hfd & _).
      rewrite Hd in Hdesc.
      destruct Hdesc as [[Ht _]|(_ & doc & Hdoc & Hor)];
        [by destruct (plain_not_truthy h (VStr ""))|].
      exists doc, h1, desc. do 2 (split; [done|]).
      split; [by rewrite (field_record _ _ _ _ Hrec)|].
      destruct Hor as [[Ht ->]|[_ ->]]; [|done].
      intros ->. by destruct (plain_not_truthy h1 (VStr "")).
    + intros Hn.
      apply call_name_run in Hrun as (nm & Hnm & Hres & _).
      rewrite Hn in Hres.
      destruct Hres as [[Ht _]|(_ & fn & Hfn & ->)];
        [by destruct (plain_not_truthy h' (VStr ""))|].
      by exists fn.
    + intros -> Hb.
      apply call_subcommand_descriptions in Hrun
        as (bdr & sdr & bd & sd & Hbdr & _ & Hfb & _ & Hbd & _).
      rewrite Hb in Hbdr.
      destruct Hbdr as [[Ht _]|[_ ->]];
        [by destruct (plain_not_truthy h0 (VStr ""))|].
      by exists bd.
    + intros -> Hs.
      apply call_subcommand_descriptions in Hrun
        as (bdr & sdr & bd & sd & _ & Hsdr & _ & Hfs & _ & Hsd).
      rewrite Hs in Hsdr.
      destruct Hsdr as [[Ht _]|[_ ->]];
        [by destruct (plain_not_truthy h0 (VStr ""))|].
      by exists sd.
Qed.

(** C10. Every descriptor that [cog_slash] makes has [has_subcommands]
    equal to [False]. *)
Theorem cog_slash_has_no_subcommands kw h0 cmd h r h' :
  decorated (call CogSlash kw) h0 cmd h r h' →
  field h' r "has_subcommands" = Some (VBool false).
Proof.
  cbn. unfold call_cog_slash. case_decide; [|by intros ?%decorated_raise].
  intros (desc & h1 & opts & h2 & auto_conv & h3 & d & h4 & nm & lr &
          _ & _ & _ & Hd & _ & Hr & ->)%cog_slash_run.
  destruct (descriptor_record_slash _ _ _ _ _ _ _ Hd Hr) as (_ & _ & Hrec).
  by rewrite (field_record _ _ _ _ Hrec).
Qed.

End claims.

Section claims_helpers.

Variable getdoc : val → M val.
Variable generate_options : val → val → M val.
Variable generate_auto_convert : val → M val.

(** C4. For both decorators.  When the resolved option list is a non-empty
    list, be it when it is tested or as the descriptor keeps it, the
    [auto_convert] keyword has no effect: a call with the same keywords but
    for [auto_convert] returns, from the same store, the same descriptor in
    the same store, so the same [auto_convert] field.  When [options] is an
    empty list, the descriptor keeps that list and the caller's
    [auto_convert], and neither helper of [manage_commands] is called: the
    run is the same whatever they are. *)
Theorem auto_convert_argument_and_empty_options f kw h0 cmd h r h' :
  decorated (call getdoc generate_options generate_auto_convert f kw)
    h0 cmd h r h' →
  (∀ desc h1 opts h2 kw',
     resolved_description getdoc (kwarg kw "description") cmd h desc h1 →
     resolved_options generate_options (kwarg kw "options") cmd desc
       h1 opts h2 →
     nonempty_list h2 opts →
     delete "auto_convert" kw' = delete "auto_convert" kw →
     decorated (call getdoc generate_options generate_auto_convert f kw')
       h0 cmd h r h') ∧
  (∀ opts kw',
     field h' r "api_options" = Some opts → nonempty_list h' opts →
     delete "auto_convert" kw' = delete "auto_convert" kw →
     decorated (call getdoc generate_options generate_auto_convert f kw')
       h0 cmd h r h') ∧
  (empty_list h (kwarg kw "options") → preserves (getdoc cmd) →
   field h' r "api_options" = Some (kwarg kw "options") ∧
   field h' r "auto_convert" = Some (kwarg kw "auto_convert") ∧
   ∀ generate_options' generate_auto_convert',
     decorated (call getdoc generate_options' generate_auto_convert' f kw)
       h0 cmd h r h').
Proof.
  intros Hrun. split; [|split].
  - intros desc h1 opts h2 kw' Hdesc Hopts Hne Hkw.
    apply (call_auto_convert_ignored _ _ _ f kw); [done| |done].
    intros desc' h1' opts' h2' Hdesc' Hopts'.
    destruct (resolved_description_inj _ _ _ _ _ _ _ _ Hdesc Hdesc')
      as [<- <-].
    destruct (resolved_options_inj _ _ _ _ _ _ _ _ _ Hopts Hopts')
      as [<- <-].
    by apply nonempty_list_truthy.
  - intros opts kw' Hfield Hne Hkw.
    apply (call_auto_convert_ignored _ _ _ f kw); [done| |done].
    intros desc' h1' opts' h2' Hdesc' Hopts'.
    pose proof (call_run _ _ _ _ _ _ _ _ _ _ Hrun)
      as (desc & h1 & opts0 & h2 & auto_conv & h3 & items & Hdesc & Hopts &
          Hac & Hsub & Hrec & _ & _ & _ & _ & Hfo).
    destruct (resolved_description_inj _ _ _ _ _ _ _ _ Hdesc Hdesc')
      as [<- <-].
    destruct (resolved_options_inj _ _ _ _ _ _ _ _ _ Hopts Hopts')
      as [<- <-].
    rewrite (field_record _ _ _ _ Hrec), Hfo in Hfield.
    injection Hfield as <-.
    by apply (tested_truthy _ _ _ _ _ _ h' Hac).
  - intros Hemp Hpres.
    pose proof (call_run _ _ _ _ _ _ _ _ _ _ Hrun)
      as (desc & h1 & opts & h2 & auto_conv & h3 & items & Hdesc & Hopts &
          Hac & _ & Hrec & _ & _ & Hfa & _ & Hfo).
    pose proof (empty_list_subseteq _ _ _ Hemp
                  (resolved_description_subseteq _ _ _ _ _ _ Hdesc Hpres))
      as Hemp1.
    destruct (resolved_given_empty _ _ generate_options generate_auto_convert
                _ _ _ _ _ _ _ _ _ Hemp1 Hopts Hac) as (-> & -> & _).
    do 2 (split; [by rewrite (field_record _ _ _ _ Hrec)|]).
    intros g' ga'. clear Hdesc Hopts Hac Hrec Hfa Hfo.
    destruct f; cbn in *.
    + unfold call_cog_slash in *.
      case_decide as Hdom; [|by apply decorated_raise in Hrun].
      apply cog_slash_run in Hrun
        as (desc' & h1' & opts & h2' & auto_conv & h3' & d & h4 & nm & lr &
            Hdesc & Hopts & Hac & Hrest).
      pose proof (empty_list_subseteq _ _ _ Hemp
                    (resolved_description_subseteq _ _ _ _ _ _ Hdesc Hpres))
        as Hemp'.
      destruct (resolved_given_empty _ _ g' ga' _ _ _ _ _ _ _ _ _
                  Hemp' Hopts Hac) as (_ & _ & Hopts' & Hac').
      apply cog_slash_run.
      by exists desc', h1', opts, h2', auto_conv, h3', d, h4, nm, lr.
    + unfold call_cog_subcommand in *.
      case_decide as Hdom; [|by apply decorated_raise in Hrun].
      destruct (kw !! "base") as [base|]; [|by apply decorated_raise in Hrun].
      apply cog_subcommand_run in Hrun
        as (bdr & sdr & Hbdr & Hsdr &
            desc' & h1' & opts & h2' & auto_conv & h3' & nm & bd & sd & d &
            h4 & nm' & lr & Hdesc & Hopts & Hac & Hrest).
      pose proof (empty_list_subseteq _ _ _ Hemp
                    (resolved_description_subseteq _ _ _ _ _ _ Hdesc Hpres))
        as Hemp'.
      destruct (resolved_given_empty _ _ g' ga' _ _ _ _ _ _ _ _ _
                  Hemp' Hopts Hac) as (_ & _ & Hopts' & Hac').
      apply cog_subcommand_run. exists bdr, sdr. do 2 (split; [done|]).
      by exists desc', h1', opts, h2', auto_conv, h3', nm, bd, sd, d, h4, nm', lr.
Qed.

End claims_helpers.

(** ** The three runs *)

Example demo_slash_descriptor :
  demo_slash.1 = inr (VRef 9%positive) ∧
  demo_slash.2 !! 9%positive
    = Some (OCogCommandObject (VStr "say") (VRef 8%positive)) ∧
  demo_slash.2 !! 8%positive
    = Some (ODict [ (VStr "func", VRef 1%positive);
                    (VStr "description", VStr "Say it");
                    (VStr "auto_convert", VRef 7%positive);
                    (VStr "guild_ids", VNone);
                    (VStr "api_options", VRef 6%positive);
                    (VStr "has_subcommands", VBool false) ]) ∧
  demo_slash.2 !! 7%positive = Some (ODict [(VStr "text", VInt 3)]) ∧
  demo_slash.2 !! 6%positive = Some (OList [VRef 5%positive]).
Proof. repeat split; vm_compute; reflexivity. Qed.

Example demo_subcommand_descriptor :
  demo_subcommand.1 = inr (VRef 9%positive) ∧
  demo_subcommand.2 !! 9%positive
    = Some (OCogSubcommandObject (VRef 8%positive) (VStr "group")
              (VStr "say") VNone) ∧
  demo_subcommand.2 !! 8%positive
    = Some (ODict [ (VStr "func", VRef 1%positive);
                    (VStr "name", VStr "say");
                    (VStr "description", VStr "Say it");
                    (VStr "base_desc", VStr "Group commands");
                    (VStr "sub_group_desc", VStr "No Description.");
                    (VStr "auto_convert", VRef 7%positive);
                    (VStr "guild_ids", VRef 2%positive);
                    (VStr "api_options", VRef 6%positive) ]).
Proof. repeat split; vm_compute; reflexivity. Qed.

Example demo_given_descriptor :
  demo_given.1 = inr (VRef 6%positive) ∧
  demo_given.2 !! 5%positive
    = Some (ODict [ (VStr "func", VRef 1%positive);
                    (VStr "description", VStr "Says it");
                    (VStr "auto_convert", VRef 4%positive);
                    (VStr "guild_ids", VNone);
                    (VStr "api_options", VRef 3%positive);
                    (VStr "has_subcommands", VBool false) ]).
Proof. repeat split; vm_compute; reflexivity. Qed.

(** A keyword of the other decorator, [base] left out, and a [cmd] without
    [__name__]. *)
Example unknown_keyword_raises :
  (demo_call CogSlash {[ "base" := VStr "group" ]} demo_store).1
  = inl (Exception "TypeError").
Proof. vm_compute; reflexivity. Qed.

Example missing_base_raises :
  (demo_call CogSubcommand {[ "name" := VStr "say" ]} demo_store).1
  = inl (Exception "TypeError").
Proof. vm_compute; reflexivity. Qed.

Example nameless_cmd_raises :
  (decorate (demo_call CogSlash {[ "options" := VRef 3%positive ]})
     demo_store (VInt 7) demo_store).1
  = inl (Exception "AttributeError").
Proof. vm_compute; reflexivity. Qed.

(** ** The claims on the three runs *)

Ltac demo_run := apply decorate_decorated; vm_compute; reflexivity.

Lemma api_options_generated_or_given_witness :
  ∃ desc h1 opts h2,
    resolved_description demo_getdoc
      (kwarg demo_subcommand_kw "description") (VRef 1%positive)
      demo_store desc h1 ∧
    field demo_subcommand.2 (VRef 9%positive) "description" = Some desc ∧
    field demo_subcommand.2 (VRef 9%positive) "api_options" = Some opts ∧
    (kwarg demo_subcommand_kw "options" = VNone →
     returns (demo_generate_options (VRef 1%positive) desc) h1 opts h2) ∧
    (kwarg demo_subcommand_kw "options" ≠ VNone →
     opts = kwarg demo_subcommand_kw "options").
Proof.
  apply (api_options_generated_or_given demo_getdoc demo_generate_options
           demo_generate_auto_convert CogSubcommand demo_subcommand_kw
           demo_store (VRef 1%positive) demo_store).
  demo_run.
Defined.

Lemma description_fallback_witness :
  ∃ desc h1,
    field demo_slash.2 (VRef 9%positive) "description" = Some desc ∧
    ((truthy demo_store (kwarg ∅ "description") ∧
      desc = kwarg ∅ "description") ∨
     (falsy demo_store (kwarg ∅ "description") ∧
      ∃ doc, returns (demo_getdoc (VRef 1%positive)) demo_store doc h1 ∧
             ((truthy h1 doc ∧ desc = doc) ∨
              (falsy h1 doc ∧ desc = VStr "No description")))).
Proof.
  apply (description_fallback demo_getdoc demo_generate_options
           demo_generate_auto_convert CogSlash ∅
           demo_store (VRef 1%positive) demo_store).
  demo_run.
Defined.

Lemma auto_convert_follows_options_witness :
  ∃ desc h1 opts h2 auto_conv h3,
    resolved_description demo_getdoc
      (kwarg demo_subcommand_kw "description") (VRef 1%positive)
      demo_store desc h1 ∧
    resolved_options demo_generate_options
      (kwarg demo_subcommand_kw "options") (VRef 1%positive) desc h1 opts h2 ∧
    field demo_subcommand.2 (VRef 9%positive) "api_options" = Some opts ∧
    field demo_subcommand.2 (VRef 9%positive) "auto_convert" = Some auto_conv ∧
    (nonempty_list h2 opts →
     returns (demo_generate_auto_convert opts) h2 auto_conv h3) ∧
    (empty_list h2 opts ∨ opts = VNone →
     auto_conv = kwarg demo_subcommand_kw "auto_convert").
Proof.
  apply (auto_convert_follows_options demo_getdoc demo_generate_options
           demo_generate_auto_convert CogSubcommand demo_subcommand_kw
           demo_store (VRef 1%positive) demo_store).
  demo_run.
Defined.

Lemma auto_convert_argument_and_empty_options_witness :
  decorated (demo_call CogSubcommand
               (<["auto_convert" := VRef 4%positive]> demo_subcommand_kw))
    demo_store (VRef 1%positive) demo_store (VRef 9%positive)
    demo_subcommand.2 ∧
  decorated (demo_call CogSubcommand
               (<["auto_convert" := VInt 0]> demo_subcommand_kw))
    demo_store (VRef 1%positive) demo_store (VRef 9%positive)
    demo_subcommand.2 ∧
  field demo_given.2 (VRef 6%positive) "api_options" = Some (VRef 3%positive) ∧
  field demo_given.2 (VRef 6%positive) "auto_convert" = Some (VRef 4%positive) ∧
  ∀ generate_options' generate_auto_convert',
    decorated (call demo_getdoc generate_options' generate_auto_convert'
                 CogSlash demo_given_kw)
      demo_store (VRef 1%positive) demo_store (VRef 6%positive) demo_given.2.
Proof.
  destruct (auto_convert_argument_and_empty_options
              demo_getdoc demo_generate_options
              demo_generate_auto_convert CogSubcommand demo_subcommand_kw
              demo_store (VRef 1%positive) demo_store (VRef 9%positive)
              demo_subcommand.2 ltac:(demo_run))
    as (Htested & Hkept & _).
  split; [|split].
  - eapply (Htested (VStr "Say it") demo_store (VRef 6%positive)).
    + right. split; [vm_compute; reflexivity|]. exists (VStr "Say it").
      split; [vm_compute; reflexivity|]. by left.
    + left. split; vm_compute; reflexivity.
    + exists 6%positive, (VRef 5%positive), []. split; vm_compute; reflexivity.
    + by rewrite delete_insert_eq.
  - apply (Hkept (VRef 6%positive)).
    + vm_compute; reflexivity.
    + exists 6%positive, (VRef 5%positive), []. split; vm_compute; reflexivity.
    + by rewrite delete_insert_eq.
  - apply (proj2 (proj2 (auto_convert_argument_and_empty_options
                    demo_getdoc demo_generate_options
                    demo_generate_auto_convert CogSlash demo_given_kw
                    demo_store (VRef 1%positive) demo_store (VRef 6%positive)
                    demo_given.2 ltac:(demo_run)))).
    + exists 3%positive. split; vm_compute; reflexivity.
    + apply demo_getdoc_preserves.
Defined.

Lemma alias_pairs_resolved_witness :
  ∃ base_description' subcommand_group_description' bd sd,
    resolved_or (kwarg demo_subcommand_kw "base_description")
      (kwarg demo_subcommand_kw "base_desc") demo_store base_description' ∧
    resolved_or (kwarg demo_subcommand_kw "subcommand_group_description")
      (kwarg demo_subcommand_kw "sub_group_desc") demo_store
      subcommand_group_description' ∧
    field demo_subcommand.2 (VRef 9%positive) "base_desc" = Some bd ∧
    field demo_subcommand.2 (VRef 9%positive) "sub_group_desc" = Some sd ∧
    ((truthy demo_subcommand.2 base_description' ∧ bd = base_description') ∨
     (falsy demo_subcommand.2 base_description' ∧
      bd = VStr "No Description.")) ∧
    ((truthy demo_subcommand.2 subcommand_group_description' ∧
      sd = subcommand_group_description') ∨
     (falsy demo_subcommand.2 subcommand_group_description' ∧
      sd = VStr "No Description.")).
Proof.
  apply (alias_pairs_resolved demo_getdoc demo_generate_options
           demo_generate_auto_convert demo_subcommand_kw
           demo_store (VRef 1%positive) demo_store).
  demo_run.
Defined.

Lemma cog_slash_returns_command_object_witness :
  decorated (demo_call CogSlash ∅) demo_store (VRef 1%positive) demo_store
    (VRef 9%positive) demo_slash.2.
Proof.
  apply (cog_slash_returns_command_object demo_getdoc demo_generate_options
           demo_generate_auto_convert).
  split; [vm_compute; done|].
  exists (VStr "Say it"), demo_store.
  eexists (VRef 6%positive), _, (VRef 7%positive), _.
  exists 8%positive. eexists _, (VStr "say"), 9%positive.
  split.
  { right. split; [done|]. exists (VStr "Say it").
    split; [vm_compute; reflexivity|]. by left. }
  split; [left; split; [done|]; vm_compute; reflexivity|].
  split; [left; split; vm_compute; reflexivity|].
  split; [split; vm_compute; reflexivity|].
  split.
  { right. split; [done|].
    exists (Function "say" (VStr "Say it")
              [("self", VNone); ("ctx", VNone); ("text", VInt 3)]).
    split; [|reflexivity].
    exists 1%positive. split; [done|]. vm_compute; reflexivity. }
  split; [split; vm_compute; reflexivity | done].
Defined.

Lemma cog_subcommand_returns_subcommand_object_witness :
  decorated (demo_call CogSubcommand demo_subcommand_kw)
    demo_store (VRef 1%positive) demo_store (VRef 9%positive)
    demo_subcommand.2.
Proof.
  apply (cog_subcommand_returns_subcommand_object demo_getdoc
           demo_generate_options demo_generate_auto_convert).
  split; [refine (bool_decide_unpack _ _); vm_compute; exact I|].
  exists (VStr "group"), (VStr "Group commands"), VNone.
  split; [vm_compute; reflexivity|].
  split; [right; split; vm_compute; reflexivity|].
  split; [right; split; vm_compute; reflexivity|].
  exists (VStr "Say it"), demo_store.
  eexists (VRef 6%positive), _, (VRef 7%positive), _.
  exists (VStr "say"), (VStr "Group commands"), (VStr "No Description.").
  exists 8%positive. eexists _, 9%positive.
  split.
  { right. split; [vm_compute; reflexivity|]. exists (VStr "Say it").
    split; [vm_compute; reflexivity|]. by left. }
  split; [left; split; vm_compute; reflexivity|].
  split; [left; split; vm_compute; reflexivity|].
  split.
  { right. split; [vm_compute; reflexivity|].
    exists (Function "say" (VStr "Say it")
              [("self", VNone); ("ctx", VNone); ("text", VInt 3)]).
    split; [|reflexivity].
    exists 1%positive. split; [done|]. vm_compute; reflexivity. }
  split; [by left|].
  split; [right; split; vm_compute; reflexivity|].
  split; [split; vm_compute; reflexivity|].
  split; [split; vm_compute; reflexivity | done].
Defined.

Lemma decoration_changes_no_object_witness :
  field demo_subcommand.2 (VRef 9%positive) "func" = Some (VRef 1%positive) ∧
  field demo_subcommand.2 (VRef 9%positive) "guild_ids"
    = Some (VRef 2%positive) ∧
  ∀ l o, demo_store !! l = Some o → demo_subcommand.2 !! l = Some o.
Proof.
  destruct (decoration_changes_no_object demo_getdoc demo_generate_options
              demo_generate_auto_convert CogSubcommand demo_subcommand_kw
              demo_store (demo_wrapper CogSubcommand demo_subcommand_kw)
              demo_store (VRef 1%positive))
    as (_ & Hfields & Hframe); [vm_compute; reflexivity|].
  destruct (Hfields demo_store (VRef 9%positive) demo_subcommand.2)
    as [Hfunc Hguild]; [vm_compute; reflexivity|].
  do 2 (split; [done|]). intros l o.
  apply (Hframe (demo_getdoc_preserves _)
           (demo_generate_options_preserves _)
           demo_generate_auto_convert_preserves
           demo_store (inr (VRef 9%positive))).
  vm_compute; reflexivity.
Defined.

Lemma falsy_strings_are_missing_witness :
  decorated (demo_call CogSubcommand (delete "name" demo_subcommand_kw))
    demo_store (VRef 1%positive) demo_store (VRef 9%positive)
    demo_subcommand.2 ∧
  (∃ fn, is_function demo_subcommand.2 (VRef 1%positive) fn ∧
         descriptor_name demo_subcommand.2 (VRef 9%positive)
           = Some (VStr (__name__ fn))) ∧
  (∃ bd,
     field demo_subcommand.2 (VRef 9%positive) "base_desc" = Some bd ∧
     ((truthy demo_subcommand.2 (kwarg demo_subcommand_kw "base_desc") ∧
       bd = kwarg demo_subcommand_kw "base_desc") ∨
      (falsy demo_subcommand.2 (kwarg demo_subcommand_kw "base_desc") ∧
       bd = VStr "No Description."))).
Proof.
  destruct (falsy_strings_are_missing demo_getdoc demo_generate_options
              demo_generate_auto_convert CogSubcommand demo_subcommand_kw
              demo_store (VRef 1%positive) demo_store (VRef 9%positive)
              demo_subcommand.2) as [Hmissing Hrun].
  destruct (Hrun ltac:(demo_run)) as (_ & Hname & Hbase & _).
  split; [|split].
  - apply (proj1 (Hmissing "name" ltac:(set_solver))). demo_run.
  - apply Hname. vm_compute; reflexivity.
  - apply Hbase; [done | vm_compute; reflexivity].
Defined.

Lemma cog_slash_has_no_subcommands_witness :
  field demo_slash.2 (VRef 9%positive) "has_subcommands" = Some (VBool false).
Proof.
  apply (cog_slash_has_no_subcommands demo_getdoc demo_generate_options
           demo_generate_auto_convert ∅
           demo_store (VRef 1%positive) demo_store).
  demo_run.
Defined.

(** ** Runs that raise *)

Lemma raises_ret {A : Type} (a : A) h e h' : ¬ raises (ret a) h e h'.
Proof. unfold raises, ret. congruence. Qed.

Lemma raises_raise {A : Type} (e0 : exn) h e h' :
  raises (raise (A := A) e0) h e h' ↔ e = e0 ∧ h' = h.
Proof.
  unfold raises, raise. split; [intros [= <- <-] | intros [-> ->]]; done.
Qed.


Lemma raises_bind {A B : Type} (m : M A) (k : A → M B) h e h' :
  raises (x <- m ;; k x) h e h' ↔
  raises m h e h' ∨ ∃ a h1, returns m h a h1 ∧ raises (k a) h1 e h'.
Proof.
  unfold raises, returns, bind. split.
  - destruct (m h) as [[e0|a] h1]; cbn; [intros [= -> ->]; by left | intros Hk].
    right. by exists a, h1.
  - intros [-> | (a & h1 & -> & Hk)]; done.
Qed.

Lemma bind_returns {A B : Type} (m : M A) (k : A → M B) h a h1 :
  returns m h a h1 → (x <- m ;; k x) h = k a h1.
Proof. unfold returns, bind. by intros ->. Qed.

Lemma raises_deref l h e h' :
  raises (deref l) h e h' ↔
  e = Exception "SystemError" ∧ h' = h ∧ h !! l = None.
Proof.
  unfold raises, deref. destruct (h !! l) as [o|]; split; try done.
  - by intros (_ & _ & ?).
  - by intros [= <- <-].
  - by intros (-> & -> & _).
Qed.

Lemma raises_truth v h e h' :
  raises (truth v) h e h' ↔
  e = Exception "SystemError" ∧ h' = h ∧ dangling h v.
Proof.
  unfold dangling. destruct v as [| | | |l]; cbn;
    try (split; [by intros ?%raises_ret | by intros (_ & _ & l & ? & _)]).
  rewrite raises_bind, raises_deref. split.
  - intros [(-> & -> & Hl) | (o & h1 & _ & []%raises_ret)]. eauto.
  - intros (-> & -> & l' & [= <-] & Hl). by left.
Qed.

Lemma raises_or_ret x my h e h' :
  raises (ret x <or> my) h e h' ↔
  (e = Exception "SystemError" ∧ h' = h ∧ dangling h x) ∨
  (falsy h x ∧ raises my h e h').
Proof.
  unfold py_or. rewrite raises_bind. split.
  - intros [[]%raises_ret | (x' & h1 & [-> ->]%returns_ret & Hk)].
    apply raises_bind in Hk as [Ht%raises_truth | (b & h2 & Hb & Hk)];
      [by left|].
    apply returns_truth in Hb as [-> [[-> Hb]|[-> Hb]]];
      [by apply raises_ret in Hk | by right].
  - intros [Hd | [Hf Hmy]]; right; exists x, h;
      (split; [by apply returns_ret|]); apply raises_bind.
    + left. by apply raises_truth.
    + right. by exists false, h.
Qed.


Lemma raises_get__name__ cmd h e h' :
  raises (get__name__ cmd) h e h' ↔
  h' = h ∧
  ((e = Exception "AttributeError" ∧ ¬ dangling h cmd ∧
    ¬ ∃ f, is_function h cmd f) ∨
   (e = Exception "SystemError" ∧ dangling h cmd)).
Proof.
  unfold dangling, is_function. destruct cmd as [| | | |l]; cbn;
    try (rewrite raises_raise; naive_solver).
  rewrite raises_bind, raises_deref. split.
  - intros [(-> & -> & Hl) | (o & h1 & [Hl ->]%returns_deref & Ho)].
    { split; [done|]. right. eauto. }
    destruct o; try (by apply raises_ret in Ho);
      apply raises_raise in Ho as [-> ->]; (split; [done|]); left;
      (split; [done|]); (split; [intros (? & [= <-] & ?); congruence|]);
      intros (? & ? & [= <-] & ?); congruence.
  - intros (-> & [(-> & Hlive & Hnf)|(-> & l' & [= <-] & Hl)]); [|by left].
    right. destruct (h !! l) as [o|] eqn:Hl; [|destruct Hlive; eauto].
    exists o, h. split; [by apply returns_deref|].
    destruct o; try (by apply raises_raise). destruct Hnf. eauto.
Qed.

Lemma raises_name name cmd h e h' :
  raises (ret name <or> get__name__ cmd) h e h' ↔
  h' = h ∧
  ((e = Exception "AttributeError" ∧ falsy h name ∧ ¬ dangling h cmd ∧
    ¬ ∃ f, is_function h cmd f) ∨
   (e = Exception "SystemError" ∧
    (dangling h name ∨ (falsy h name ∧ dangling h cmd)))).
Proof.
  rewrite raises_or_ret, raises_get__name__. naive_solver.
Qed.

Lemma nameless_not_function h v : nameless h v → ¬ ∃ f, is_function h v f.
Proof.
  intros Hn (f & l & -> & Hl). cbn in Hn.
  destruct Hn as (o & Ho & [[items ->]|[items ->]]); congruence.
Qed.

Lemma nameless_not_dangling h v : nameless h v → ¬ dangling h v.
Proof. intros Hn (l & -> & Hl). cbn in Hn. destruct Hn as (o & Ho & _). congruence. Qed.

Lemma nameless_subseteq h h' v : nameless h v → h ⊆ h' → nameless h' v.
Proof.
  destruct v as [| | | |l]; cbn; try done.
  intros (o & Ho & Hkind) Hsub. exists o. split; [|done].
  by apply (lookup_weaken _ _ _ _ Ho Hsub).
Qed.



Lemma live_truth h v : live h v → ∃ b, returns (truth v) h b h.
Proof.
  unfold returns. destruct v as [| | | |l]; cbn; unfold ret; eauto.
  intros [o Ho]. unfold bind, deref. rewrite Ho. eauto.
Qed.

Lemma live_resolved_or x y h : live h x → ∃ v, resolved_or x y h v.
Proof.
  intros [[] Hb]%live_truth; [exists x; by left | exists y; by right].
Qed.


Section failures.

Variable getdoc : val → M val.
Variable generate_options : val → val → M val.
Variable generate_auto_convert : val → M val.

Local Abbreviation call := (call getdoc generate_options generate_auto_convert).

(** X1. A decorator expression fails in one way only: with [TypeError], when
    a keyword is not in the signature or [cog_subcommand] is not given
    [base].  Otherwise it returns its wrapper and leaves the store as it
    is. *)
Theorem decorator_expression_outcome f kw h0 :
  (dom kw ⊆ keywords f →
   (f = CogSubcommand → is_Some (kw !! "base")) →
   (f = CogSubcommand → live h0 (kwarg kw "base_description")) →
   (f = CogSubcommand → live h0 (kwarg kw "subcommand_group_description")) →
   ∃ wrapper, returns (call f kw) h0 wrapper h0) ∧
  (¬ (dom kw ⊆ keywords f ∧ (f = CogSubcommand → is_Some (kw !! "base"))) →
   call f kw h0 = (inl (Exception "TypeError"), h0)).
Proof.
  split.
  - intros Hdom Hbase Hb Hs. destruct f; unfold call.
    + unfold call_cog_slash. rewrite decide_True by done.
      eexists. by apply returns_ret.
    + unfold call_cog_subcommand. rewrite decide_True by done.
      destruct (Hbase eq_refl) as [base ->].
      destruct (live_resolved_or _ (kwarg kw "base_desc") _ (Hb eq_refl))
        as [bdr Hbdr].
      destruct (live_resolved_or _ (kwarg kw "sub_group_desc") _ (Hs eq_refl))
        as [sdr Hsdr].
      eexists. unfold cog_subcommand.
      apply returns_bind. exists bdr, h0.
      split; [by apply returns_or_values|].
      apply returns_bind. exists sdr, h0.
      split; [by apply returns_or_values|]. by apply returns_ret.
  - intros Hnot. destruct f; unfold call.
    + unfold call_cog_slash. case_decide; [|done]. destruct Hnot. by split.
    + unfold call_cog_subcommand. case_decide; [|done].
      destruct (kw !! "base") as [base|] eqn:Hbase; [|done].
      destruct Hnot. split; [done|]. intros _. by exists base.
Qed.


End failures.

Section name_failure.

Variable getdoc : val → M val.
Variable generate_options : val → val → M val.
Variable generate_auto_convert : val → M val.

Local Abbreviation call := (call getdoc generate_options generate_auto_convert).

(** X3. Without a true [name], decorating what has no [__name__] ([None],
    a number, a string, a list, a dict) raises [AttributeError], and only
    after the description, the options and the auto-conversion map were
    resolved: the helpers have run.  [cog_slash] has built its record by
    then; [cog_subcommand] has built nothing. *)
Theorem cmd_without_name_raises f kw h0 wrapper cmd h
    desc h1 opts h2 auto_conv h3 :
  returns (call f kw) h0 wrapper h0 →
  resolved_description getdoc (kwarg kw "description") cmd h desc h1 →
  resolved_options generate_options (kwarg kw "options") cmd desc h1 opts h2 →
  resolved_auto_convert generate_auto_convert (kwarg kw "auto_convert")
    opts h2 auto_conv h3 →
  falsy h3 (kwarg kw "name") →
  nameless h3 cmd →
  wrapper cmd h =
    (inl (Exception "AttributeError"),
     store_at_name f cmd desc auto_conv (kwarg kw "guild_ids") opts h3).
Proof.
  intros Hw Hdesc%returns_description Hopts%returns_options
         Hac%returns_auto_convert Hname Hcmd.
  apply returns_bind in Hac as (b & h2' & Hb & Hc).
  destruct f; unfold call in Hw.
  - unfold call_cog_slash in Hw.
    case_decide; [|by apply returns_raise in Hw].
    apply returns_ret in Hw as [-> _].
    rewrite (bind_returns _ _ _ _ _ Hdesc), (bind_returns _ _ _ _ _ Hopts),
      (bind_returns _ _ _ _ _ Hb), (bind_returns _ _ _ _ _ Hc).
    erewrite bind_returns by (by apply returns_alloc).
    apply (proj2 (raises_bind _ _ _ _ _)). left.
    assert (Hsub : h3 ⊆ store_at_name CogSlash cmd desc auto_conv
                         (kwarg kw "guild_ids") opts h3).
    { apply insert_subseteq, not_elem_of_dom, is_fresh. }
    apply raises_name. split; [done|]. left. split; [done|].
    split; [by apply (falsy_subseteq h3)|].
    pose proof (nameless_subseteq _ _ _ Hcmd Hsub) as Hcmd'.
    split; [by apply nameless_not_dangling | by apply nameless_not_function].
  - unfold call_cog_subcommand in Hw.
    case_decide; [|by apply returns_raise in Hw].
    destruct (kw !! "base") as [base|]; [|by apply returns_raise in Hw].
    apply returns_bind in Hw as (bdr & ? & _ & Hw).
    apply returns_bind in Hw as (sdr & ? & _ & Hw).
    apply returns_ret in Hw as [-> _].
    rewrite (bind_returns _ _ _ _ _ Hdesc), (bind_returns _ _ _ _ _ Hopts),
      (bind_returns _ _ _ _ _ Hb), (bind_returns _ _ _ _ _ Hc).
    apply (proj2 (raises_bind _ _ _ _ _)). left.
    apply raises_name. split; [done|]. left. do 2 (split; [done|]).
    split; [by apply nameless_not_dangling | by apply nameless_not_function].
Qed.

End name_failure.

(** ** Helpers that are not called *)

Lemma decorate_ret wrapper h0 cmd h : decorate (ret wrapper) h0 cmd h = wrapper cmd h.
Proof. done. Qed.

Lemma decorate_bind {A : Type} (m : M A) (k k' : A → M (val → M val)) h0 cmd h :
  (∀ a h1, decorate (k a) h1 cmd h = decorate (k' a) h1 cmd h) →
  decorate (x <- m ;; k x) h0 cmd h = decorate (x <- m ;; k' x) h0 cmd h.
Proof.
  intros Hk. unfold decorate, bind in *.
  destruct (m h0) as [[e|a] h1]; [done|]. apply Hk.
Qed.

Lemma bind_or_truthy {B : Type} x my (k : val → M B) h :
  truthy h x → (v <- ret x <or> my ;; k v) h = k x h.
Proof.
  intros Ht. apply bind_returns, returns_or_ret. by left.
Qed.

(** X4. When [description] is true, [inspect.getdoc] is not called: whatever
    it is, the decoration has the same outcome, value or exception, and
    leaves the same store. *)
Theorem truthy_description_skips_getdoc
    getdoc getdoc' generate_options generate_auto_convert f kw h0 cmd h :
  truthy h (kwarg kw "description") →
  decorate (call getdoc generate_options generate_auto_convert f kw)
    h0 cmd h =
  decorate (call getdoc' generate_options generate_auto_convert f kw)
    h0 cmd h.
Proof.
  intros Ht. destruct f; unfold call.
  - unfold call_cog_slash. case_decide; [|done].
    unfold cog_slash. rewrite !decorate_ret, !bind_or_truthy by done. done.
  - unfold call_cog_subcommand. case_decide; [|done].
    destruct (kw !! "base") as [base|]; [|done].
    unfold cog_subcommand.
    apply decorate_bind. intros bdr ?. apply decorate_bind. intros sdr ?.
    rewrite !decorate_ret, !bind_or_truthy by done. done.
Qed.

(** X5. When [options] is anything but [None], [generate_options] is not
    called: whatever it is, the decoration has the same outcome, value or
    exception, and leaves the same store. *)
Theorem given_options_skip_generate_options
    getdoc generate_options generate_options' generate_auto_convert
    f kw h0 cmd h :
  kwarg kw "options" ≠ VNone →
  decorate (call getdoc generate_options generate_auto_convert f kw)
    h0 cmd h =
  decorate (call getdoc generate_options' generate_auto_convert f kw)
    h0 cmd h.
Proof.
  intros Hne. destruct f; unfold call.
  - unfold call_cog_slash. case_decide; [|done].
    unfold cog_slash. rewrite !decorate_ret.
    by destruct (kwarg kw "options").
  - unfold call_cog_subcommand. case_decide; [|done].
    destruct (kw !! "base") as [base|]; [|done].
    unfold cog_subcommand.
    apply decorate_bind. intros bdr ?. apply decorate_bind. intros sdr ?.
    rewrite !decorate_ret. by destruct (kwarg kw "options").
Qed.

(** ** New objects, shared arguments *)

Lemma resolved_options_subseteq generate_options options cmd desc h1 opts h2 :
  resolved_options generate_options options cmd desc h1 opts h2 →
  preserves (generate_options cmd desc) → h1 ⊆ h2.
Proof. intros [[_ Hgen]|(_ & _ & ->)] Hpres; [by eapply Hpres | done]. Qed.

Lemma resolved_auto_convert_subseteq generate_auto_convert auto_convert
    opts h2 auto_conv h3 :
  resolved_auto_convert generate_auto_convert auto_convert opts h2
    auto_conv h3 →
  preserves (generate_auto_convert opts) → h2 ⊆ h3.
Proof. intros [[_ Hgen]|(_ & _ & ->)] Hpres; [by eapply Hpres | done]. Qed.

Lemma truthy_not_empty h v : truthy h v → v ≠ VNone ∧ v ≠ VStr "".
Proof. unfold truthy, returns. split; intros ->; done. Qed.

Lemma resolved_or_literal_truthy x s h v :
  s ≠ "" → resolved_or x (VStr s) h v → truthy h v.
Proof.
  intros Hs [[Ht ->]|[_ ->]]; [done|]. apply plain_truth_returns. cbn.
  destruct s; done.
Qed.

Section new_objects.

Variable getdoc : val → M val.
Variable generate_options : val → val → M val.
Variable generate_auto_convert : val → M val.

Local Abbreviation call := (call getdoc generate_options generate_auto_convert).

Lemma resolved_description_truthy description cmd h desc h1 :
  resolved_description getdoc description cmd h desc h1 → truthy h1 desc.
Proof.
  intros [(Ht & -> & ->)|(_ & doc & _ & Hor)]; [done|].
  by apply (resolved_or_literal_truthy doc "No description").
Qed.

(** The descriptor and its record are the last two objects of the run. *)
Lemma call_shape f kw h0 cmd h r h' :
  decorated (call f kw) h0 cmd h r h' →
  ∃ desc h1 opts h2 auto_conv h3 d h4 lr items o,
    resolved_description getdoc (kwarg kw "description") cmd h desc h1 ∧
    resolved_options generate_options (kwarg kw "options") cmd desc
      h1 opts h2 ∧
    resolved_auto_convert generate_auto_convert (kwarg kw "auto_convert")
      opts h2 auto_conv h3 ∧
    allocates h3 (ODict items) d h4 ∧
    allocates h4 o lr h' ∧
    r = VRef lr ∧
    descriptor_record h' r = Some items.
Proof.
  destruct f; cbn.
  - unfold call_cog_slash. case_decide; [|by intros ?%decorated_raise].
    intros (desc & h1 & opts & h2 & auto_conv & h3 & d & h4 & nm & lr &
            Hdesc & Hopts & Hac & Hd & Hnm & Hr & ->)%cog_slash_run.
    exists desc, h1, opts, h2, auto_conv, h3, d, h4, lr. eexists _, _.
    do 5 (split; [done|]). split; [done|].
    by eapply descriptor_record_slash.
  - unfold call_cog_subcommand. case_decide; [|by intros ?%decorated_raise].
    destruct (kw !! "base") as [base|]; [|by intros ?%decorated_raise].
    intros (bdr & sdr & _ & _ &
            desc & h1 & opts & h2 & auto_conv & h3 & nm & bd & sd & d & h4 &
            nm' & lr & Hdesc & Hopts & Hac & _ & _ & _ & Hd & _ & Hr & ->)
           %cog_subcommand_run.
    exists desc, h1, opts, h2, auto_conv, h3, d, h4, lr. eexists _, _.
    do 5 (split; [done|]). split; [done|].
    by eapply descriptor_record_subcommand.
Qed.

(** With helpers that change no object, the descriptor and its record are
    at addresses the store the wrapper started in did not have. *)
Lemma call_new f kw h0 cmd h r h' :
  preserves (getdoc cmd) →
  (∀ desc, preserves (generate_options cmd desc)) →
  (∀ opts, preserves (generate_auto_convert opts)) →
  decorated (call f kw) h0 cmd h r h' →
  ∃ lr d items,
    r = VRef lr ∧ h !! lr = None ∧ h !! d = None ∧ lr ≠ d ∧
    h ⊆ h' ∧
    h' !! d = Some (ODict items) ∧
    descriptor_record h' r = Some items.
Proof.
  intros Hdoc Hgen Hconv
    (desc & h1 & opts & h2 & auto_conv & h3 & d & h4 & lr & items & o &
     Hdesc & Hopts & Hac & Hd & Hr & -> & Hrec)%call_shape.
  assert (Hsub : h ⊆ h3).
  { etrans; [by eapply resolved_description_subseteq|].
    etrans; [by eapply resolved_options_subseteq|].
    by eapply resolved_auto_convert_subseteq. }
  pose proof (allocates_subseteq _ _ _ _ Hd) as Hsub4.
  pose proof (allocates_subseteq _ _ _ _ Hr) as Hsub'.
  pose proof (allocates_new _ _ _ _ Hd) as Hnewd.
  pose proof (allocates_new _ _ _ _ Hr) as Hnewr.
  pose proof (allocates_lookup _ _ _ _ Hd) as Hld.
  assert (Hnone : ∀ (g g' : heap) (l : loc), g ⊆ g' → g' !! l = None → g !! l = None).
  { intros g g' l Hgg Hl. destruct (g !! l) as [x|] eqn:Hx; [|done].
    by rewrite (lookup_weaken _ _ _ _ Hx Hgg) in Hl. }
  exists lr, d, items. split; [done|].
  split; [apply (Hnone h h4); [by etrans|done]|].
  split; [by apply (Hnone h h3)|].
  split; [intros ->; congruence|].
  split; [by do 2 (etrans; [done|])|].
  split; [by apply (lookup_weaken _ _ _ _ Hld Hsub')|done].
Qed.

(** X6. With helpers that change no object, what the wrapper returns is a
    new object with a new record: both are at addresses that had no object
    when the wrapper started, they are two objects, and no value that was
    live then, [cmd] and the keyword arguments among them, refers to
    either. *)
Theorem descriptor_is_new f kw h0 cmd h r h' :
  preserves (getdoc cmd) →
  (∀ desc, preserves (generate_options cmd desc)) →
  (∀ opts, preserves (generate_auto_convert opts)) →
  decorated (call f kw) h0 cmd h r h' →
  ∃ lr d items,
    r = VRef lr ∧ h !! lr = None ∧ h !! d = None ∧ lr ≠ d ∧
    h' !! d = Some (ODict items) ∧
    descriptor_record h' r = Some items ∧
    ∀ v, live h v → v ≠ VRef lr ∧ v ≠ VRef d.
Proof.
  intros Hdoc Hgen Hconv Hrun.
  destruct (call_new _ _ _ _ _ _ _ Hdoc Hgen Hconv Hrun)
    as (lr & d & items & -> & Hlr & Hd & Hne & _ & Hdict & Hrec).
  exists lr, d, items. do 6 (split; [done|]).
  intros v Hv. split; intros ->; cbn in Hv; destruct Hv; congruence.
Qed.

(** X7. One wrapper serves many functions.  Applied to [cmd1] and then, in
    the store that leaves, to [cmd2], with helpers that change no object, it
    returns two descriptors: the second is another object, the first is as
    it was, each keeps its own function, and both keep the one [guild_ids]
    object and, when [options] was given, the one [options] object. *)
Theorem wrapper_serves_many f kw h0 wrapper cmd1 cmd2 h r1 h1 r2 h2 :
  preserves (getdoc cmd2) →
  (∀ desc, preserves (generate_options cmd2 desc)) →
  (∀ opts, preserves (generate_auto_convert opts)) →
  returns (call f kw) h0 wrapper h0 →
  returns (wrapper cmd1) h r1 h1 →
  returns (wrapper cmd2) h1 r2 h2 →
  r1 ≠ r2 ∧
  descriptor_record h2 r1 = descriptor_record h1 r1 ∧
  descriptor_name h2 r1 = descriptor_name h1 r1 ∧
  field h2 r1 "func" = Some cmd1 ∧
  field h2 r2 "func" = Some cmd2 ∧
  field h2 r1 "guild_ids" = Some (kwarg kw "guild_ids") ∧
  field h2 r2 "guild_ids" = Some (kwarg kw "guild_ids") ∧
  (kwarg kw "options" ≠ VNone →
   field h2 r1 "api_options" = Some (kwarg kw "options") ∧
   field h2 r2 "api_options" = Some (kwarg kw "options")).
Proof.
  intros Hdoc Hgen Hconv Hw Hr1 Hr2.
  assert (Hrun1 : decorated (call f kw) h0 cmd1 h r1 h1) by by exists wrapper.
  assert (Hrun2 : decorated (call f kw) h0 cmd2 h1 r2 h2) by by exists wrapper.
  destruct (call_new _ _ _ _ _ _ _ Hdoc Hgen Hconv Hrun2)
    as (lr2 & d2 & items2 & -> & Hlr2 & Hd2 & _ & Hsub & _ & Hrec2).
  pose proof (call_shape _ _ _ _ _ _ _ Hrun1)
    as (desc & g1 & opts & g2 & auto_conv & g3 & d1 & g4 & lr1 & items1 & o1 &
        _ & _ & _ & Hd1 & Ho1 & -> & Hrec1).
  pose proof (allocates_lookup _ _ _ _ Ho1) as Hlr1.
  assert (Hkept : descriptor_record h2 (VRef lr1) = Some items1 ∧
                  descriptor_name h2 (VRef lr1)
                  = descriptor_name h1 (VRef lr1)).
  { unfold descriptor_record, descriptor_name in *.
    rewrite Hlr1 in *. rewrite (lookup_weaken _ _ _ _ Hlr1 Hsub).
    split; [|done].
    destruct o1 as [| | |? []|[] ? ? ?]; try done;
      (destruct (h1 !! l) as [od|] eqn:Hod; [|done]);
      by rewrite (lookup_weaken _ _ _ _ Hod Hsub). }
  destruct Hkept as [Hrec1' Hname1].
  pose proof (call_run _ _ _ _ _ _ _ _ _ _ Hrun1)
    as (? & ? & opts1 & ? & ? & ? & items1' & _ & Hopts1 & _ & _ & Hrec1'' &
        Hf1 & _ & _ & Hg1 & Ho1').
  pose proof (call_run _ _ _ _ _ _ _ _ _ _ Hrun2)
    as (? & ? & opts2 & ? & ? & ? & items2' & _ & Hopts2 & _ & _ & Hrec2'' &
        Hf2 & _ & _ & Hg2 & Ho2').
  rewrite Hrec1 in Hrec1''. injection Hrec1'' as <-.
  rewrite Hrec2 in Hrec2''. injection Hrec2'' as <-.
  split; [intros [= ->]; congruence|].
  split; [by rewrite Hrec1', Hrec1|]. split; [done|].
  rewrite !(field_record _ _ _ _ Hrec1'), !(field_record _ _ _ _ Hrec2).
  do 4 (split; [done|]).
  intros Hne.
  destruct Hopts1 as [[? _]|(_ & -> & _)]; [done|].
  destruct Hopts2 as [[? _]|(_ & -> & _)]; [done|]. done.
Qed.

(** X8. The description a descriptor keeps is a true value, never [None]
    and never the empty string, and so is what [generate_options] is given;
    in [cog_subcommand] the same holds of [base_desc] and
    [sub_group_desc]. *)
Theorem kept_descriptions_are_true f kw h0 cmd h r h' :
  decorated (call f kw) h0 cmd h r h' →
  ∃ desc h1 opts h2,
    field h' r "description" = Some desc ∧
    resolved_description getdoc (kwarg kw "description") cmd h desc h1 ∧
    resolved_options generate_options (kwarg kw "options") cmd desc
      h1 opts h2 ∧
    truthy h1 desc ∧ desc ≠ VNone ∧ desc ≠ VStr "" ∧
    (f = CogSubcommand →
     ∃ bd sd,
       field h' r "base_desc" = Some bd ∧
       field h' r "sub_group_desc" = Some sd ∧
       truthy h' bd ∧ bd ≠ VNone ∧ bd ≠ VStr "" ∧
       truthy h' sd ∧ sd ≠ VNone ∧ sd ≠ VStr "").
Proof.
  intros Hrun.
  pose proof (call_run _ _ _ _ _ _ _ _ _ _ Hrun)
    as (desc & h1 & opts & h2 & auto_conv & h3 & items & Hdesc & Hopts & _ &
        _ & Hrec & _ & Hfd & _).
  pose proof (resolved_description_truthy _ _ _ _ _ Hdesc) as Ht.
  destruct (truthy_not_empty _ _ Ht) as [Hn He].
  exists desc, h1, opts, h2.
  split; [by rewrite (field_record _ _ _ _ Hrec)|].
  do 5 (split; [done|]).
  intros ->.
  apply call_subcommand_descriptions in Hrun
    as (bdr & sdr & bd & sd & _ & _ & Hfb & Hfs & Hbd & Hsd).
  apply (resolved_or_literal_truthy _ "No Description.") in Hbd; [|done].
  apply (resolved_or_literal_truthy _ "No Description.") in Hsd; [|done].
  destruct (truthy_not_empty _ _ Hbd), (truthy_not_empty _ _ Hsd).
  by exists bd, sd.
Qed.

End new_objects.

(** ** The further properties on the demo runs *)

Example demo_failing_outcome :
  demo_failing = (inl (Exception "TypeError"), demo_store).
Proof. vm_compute; reflexivity. Qed.

Example demo_nameless_outcome :
  demo_nameless.1 = inl (Exception "AttributeError") ∧
  demo_nameless.2 !! 5%positive
  = Some (ODict [ (VStr "func", VInt 7);
                  (VStr "description", VStr "No description");
                  (VStr "auto_convert", VNone);
                  (VStr "guild_ids", VNone);
                  (VStr "api_options", VRef 3%positive);
                  (VStr "has_subcommands", VBool false) ]).
Proof. split; vm_compute; reflexivity. Qed.

Example demo_second_outcome :
  demo_second.1 = inr (VRef 14%positive).
Proof. vm_compute; reflexivity. Qed.

Lemma decorator_expression_outcome_witness :
  (∃ wrapper,
     returns (demo_call CogSubcommand demo_subcommand_kw) demo_store
       wrapper demo_store) ∧
  demo_call CogSubcommand {[ "name" := VStr "say" ]} demo_store
  = (inl (Exception "TypeError"), demo_store).
Proof.
  split.
  - apply (proj1 (decorator_expression_outcome demo_getdoc
                    demo_generate_options demo_generate_auto_convert
                    CogSubcommand demo_subcommand_kw demo_store)).
    + refine (bool_decide_unpack _ _); vm_compute; exact I.
    + intros _. by exists (VStr "group").
    + intros _. exact I.
    + intros _. exact I.
  - apply (proj2 (decorator_expression_outcome demo_getdoc
                    demo_generate_options demo_generate_auto_convert
                    CogSubcommand {[ "name" := VStr "say" ]} demo_store)).
    intros [_ Hbase]. by destruct (Hbase eq_refl).
Defined.


Lemma cmd_without_name_raises_witness :
  demo_wrapper CogSlash demo_nameless_kw (VInt 7) demo_store
  = (inl (Exception "AttributeError"),
     store_at_name CogSlash (VInt 7) (VStr "No description") VNone
       (kwarg demo_nameless_kw "guild_ids") (VRef 3%positive) demo_store).
Proof.
  apply (cmd_without_name_raises demo_getdoc demo_generate_options
           demo_generate_auto_convert CogSlash demo_nameless_kw demo_store
           (demo_wrapper CogSlash demo_nameless_kw) (VInt 7) demo_store
           (VStr "No description") demo_store (VRef 3%positive) demo_store
           VNone demo_store).
  - vm_compute; reflexivity.
  - right. split; [vm_compute; reflexivity|]. exists VNone.
    split; [vm_compute; reflexivity|]. right. split; vm_compute; reflexivity.
  - right. repeat split; vm_compute; done.
  - right. repeat split; vm_compute; reflexivity.
  - vm_compute; reflexivity.
  - exact I.
Defined.

Lemma truthy_description_skips_getdoc_witness :
  decorate (call demo_getdoc demo_generate_options demo_generate_auto_convert
              CogSlash demo_given_kw) demo_store (VRef 1%positive) demo_store
  = decorate (call failing_getdoc demo_generate_options
                demo_generate_auto_convert CogSlash demo_given_kw)
      demo_store (VRef 1%positive) demo_store.
Proof.
  apply truthy_description_skips_getdoc. vm_compute; reflexivity.
Defined.

Lemma given_options_skip_generate_options_witness :
  decorate (call demo_getdoc demo_generate_options demo_generate_auto_convert
              CogSlash demo_given_kw) demo_store (VRef 1%positive) demo_store
  = decorate (call demo_getdoc failing_generate_options
                demo_generate_auto_convert CogSlash demo_given_kw)
      demo_store (VRef 1%positive) demo_store.
Proof.
  apply given_options_skip_generate_options. vm_compute; done.
Defined.

Lemma descriptor_is_new_witness :
  ∃ lr d items,
    VRef 9%positive = VRef lr ∧
    demo_store !! lr = None ∧ demo_store !! d = None ∧ lr ≠ d ∧
    demo_subcommand.2 !! d = Some (ODict items) ∧
    descriptor_record demo_subcommand.2 (VRef 9%positive) = Some items ∧
    ∀ v, live demo_store v → v ≠ VRef lr ∧ v ≠ VRef d.
Proof.
  apply (descriptor_is_new demo_getdoc demo_generate_options
           demo_generate_auto_convert CogSubcommand demo_subcommand_kw
           demo_store (VRef 1%positive) demo_store).
  - apply demo_getdoc_preserves.
  - intros desc. apply demo_generate_options_preserves.
  - apply demo_generate_auto_convert_preserves.
  - demo_run.
Defined.

Lemma wrapper_serves_many_witness :
  VRef 9%positive ≠ VRef 14%positive ∧
  descriptor_record demo_second.2 (VRef 9%positive)
  = descriptor_record demo_subcommand.2 (VRef 9%positive) ∧
  descriptor_name demo_second.2 (VRef 9%positive)
  = descriptor_name demo_subcommand.2 (VRef 9%positive) ∧
  field demo_second.2 (VRef 9%positive) "func" = Some (VRef 1%positive) ∧
  field demo_second.2 (VRef 14%positive) "func" = Some (VRef 1%positive) ∧
  field demo_second.2 (VRef 9%positive) "guild_ids"
  = Some (kwarg demo_subcommand_kw "guild_ids") ∧
  field demo_second.2 (VRef 14%positive) "guild_ids"
  = Some (kwarg demo_subcommand_kw "guild_ids") ∧
  (kwarg demo_subcommand_kw "options" ≠ VNone →
   field demo_second.2 (VRef 9%positive) "api_options"
   = Some (kwarg demo_subcommand_kw "options") ∧
   field demo_second.2 (VRef 14%positive) "api_options"
   = Some (kwarg demo_subcommand_kw "options")).
Proof.
  apply (wrapper_serves_many demo_getdoc demo_generate_options
           demo_generate_auto_convert CogSubcommand demo_subcommand_kw
           demo_store (demo_wrapper CogSubcommand demo_subcommand_kw)
           (VRef 1%positive) (VRef 1%positive) demo_store).
  - apply demo_getdoc_preserves.
  - intros desc. apply demo_generate_options_preserves.
  - apply demo_generate_auto_convert_preserves.
  - vm_compute; reflexivity.
  - vm_compute; reflexivity.
  - vm_compute; reflexivity.
Defined.

Lemma kept_descriptions_are_true_witness :
  ∃ desc h1 opts h2,
    field demo_subcommand.2 (VRef 9%positive) "description" = Some desc ∧
    resolved_description demo_getdoc
      (kwarg demo_subcommand_kw "description") (VRef 1%positive)
      demo_store desc h1 ∧
    resolved_options demo_generate_options
      (kwarg demo_subcommand_kw "options") (VRef 1%positive) desc h1 opts h2 ∧
    truthy h1 desc ∧ desc ≠ VNone ∧ desc ≠ VStr "" ∧
    (CogSubcommand = CogSubcommand →
     ∃ bd sd,
       field demo_subcommand.2 (VRef 9%positive) "base_desc" = Some bd ∧
       field demo_subcommand.2 (VRef 9%positive) "sub_group_desc" = Some sd ∧
       truthy demo_subcommand.2 bd ∧ bd ≠ VNone ∧ bd ≠ VStr "" ∧
       truthy demo_subcommand.2 sd ∧ sd ≠ VNone ∧ sd ≠ VStr "").
Proof.
  apply (kept_descriptions_are_true demo_getdoc demo_generate_options
           demo_generate_auto_convert CogSubcommand demo_subcommand_kw
           demo_store (VRef 1%positive) demo_store).
  demo_run.
Defined.
